(** * mini_map_splicing: the feature preview and the stitching call of
      [src/main.cpp], embedded over an explicit heap of images and a trace of
      library calls and console lines. *)

From Stdlib Require Import ZArith Lia.
From stdpp Require Import base list gmap strings.

Local Open Scope Z_scope.

(** ** Data of the program *)

(** [cv::Mat]: a grid of samples.  The program only looks at [empty()],
    [rows] and [cols]; the samples are carried along. *)
Record Mat := { rows : Z; cols : Z; data : list Z }.

(** [cv::Mat()], the value of [return {}] and of a fresh [cv::Mat result]. *)
Definition Mat_new : Mat := {| rows := 0; cols := 0; data := [] |}.

Definition Mat_empty (m : Mat) : bool := (rows m * cols m =? 0).

#[global] Instance Mat_inhabited : Inhabited Mat := populate Mat_new.

#[global] Instance Mat_eq_dec : EqDecision Mat.
Proof. solve_decision. Defined.

(** [cv::KeyPoint], with pixel coordinates and the detector response. *)
Record KeyPoint := { kp_x : Z; kp_y : Z; kp_response : Z }.

(** One row of a descriptor matrix: the bytes of a binary descriptor. *)
Definition Descriptor := list Z.

(** [cv::DMatch]. *)
Record DMatch := { queryIdx : nat; trainIdx : nat; distance : Z }.

(** [cv::NormTypes]; the program only ever names [cv::NORM_HAMMING]. *)
Inductive NormTypes : Set := NORM_HAMMING.

(** [cv::Stitcher::Mode]. *)
Inductive Mode := PANORAMA | SCANS.

(** [cv::Stitcher::Status] is an unscoped enum: an integer, which is why the
    [switch] of [stitch_images] has a [default] branch.  The four codes are
    those of [opencv2/stitching.hpp]. *)
Definition Status := Z.
Definition OK : Status := 0.
Definition ERR_NEED_MORE_IMGS : Status := 1.
Definition ERR_HOMOGRAPHY_EST_FAIL : Status := 2.
Definition ERR_CAMERA_PARAMS_ADJUST_FAIL : Status := 3.

(** Exceptions: [cv::Exception], which [stitch_images] catches, and every
    other C++ exception, which its [catch] clause does not name. *)
Inductive Exn :=
| cv_Exception (what : string)
| other_exception (what : string).

(** What the call [stitcher->stitch(images, result)] does: it returns a
    status and leaves [pano] in [result], or it throws. *)
Inductive StitchOutcome :=
| Returned (status : Status) (pano : Mat)
| Threw (e : Exn).

(** How a call of a function of the program ends. *)
Inductive Completion (A : Type) :=
| Normal (a : A)
| Propagated (e : Exn).
Arguments Normal {A} a.
Arguments Propagated {A} e.

(** [cv::ORB::create(nfeatures)]. *)
Record ORB := ORB_create { nfeatures : Z }.

(** ** The OpenCV calls the program makes

    OpenCV is not part of the repository; the program is embedded over the
    signatures of the calls it makes. *)

Class Features2d := {
  (** [orb->detectAndCompute(img, cv::noArray(), keypoints, descriptors)] *)
  detectAndCompute : ORB -> Mat -> list KeyPoint * list Descriptor;
  (** [cv::BFMatcher(normType).match(query, train, matches)] *)
  BFMatcher_match : NormTypes -> list Descriptor -> list Descriptor -> list DMatch;
  (** [cv::drawMatches(img1, keypoints1, img2, keypoints2, matches, out)] *)
  drawMatches : Mat -> list KeyPoint -> Mat -> list KeyPoint -> list DMatch -> Mat
}.

Class Stitching := {
  (** [cv::Stitcher::create(mode)], [setFeaturesFinder(orb)] and
      [stitch(images, result)]; the last argument is what [result] holds
      when the call is made. *)
  Stitcher_stitch : Mode -> ORB -> list Mat -> Mat -> StitchOutcome
}.

(** ** State: the images in memory and what the run has done so far *)

Definition loc := nat.

Inductive Arg :=
| ArgSize (n : nat)
| ArgInt (z : Z)
| ArgStr (s : string).

Inductive Event :=
| EvPrint (fmt : string) (args : list Arg)
| EvDetectAndCompute (orb : ORB) (img : Mat)
| EvMatch (normType : NormTypes) (query train : list Descriptor)
| EvDrawMatches (img1 img2 : Mat) (matches : list DMatch)
| EvShow (window_name : string) (img : Mat) (width : Z)
| EvStitch (mode : Mode) (orb : ORB) (images : list Mat).

Record State := { heap : gmap loc Mat; trace : list Event }.

Definition M (A : Type) : Type := State -> A * State.

#[global] Instance M_ret : MRet M := fun A (a : A) s => (a, s).
#[global] Instance M_bind : MBind M :=
  fun A B (f : A -> M B) (m : M A) s => let '(a, s') := m s in f a s'.

Definition emit (e : Event) : M unit :=
  fun s => (tt, {| heap := heap s; trace := trace s ++ [e] |}).

(** Reading through a [const cv::Mat&]. *)
Definition load (l : loc) : M Mat := fun s => (heap s !!! l, s).

(** Writing through a [cv::Mat&]. *)
Definition store (l : loc) (m : Mat) : M unit :=
  fun s => (tt, {| heap := <[l := m]> (heap s); trace := trace s |}).

Fixpoint load_all (ls : list loc) : M (list Mat) :=
  match ls with
  | [] => mret []
  | l :: ls' => m ← load l; ms ← load_all ls'; mret (m :: ms)
  end.

(** [fmt::print(fmt, args...)]; [\n] in a format is the newline escape of
    the source. *)
Definition print (fmt : string) (args : list Arg) : M unit :=
  emit (EvPrint fmt args).

(** ** The functions of [src/main.cpp] *)

(** [show_image]: nothing for an empty image; otherwise the call goes on to
    the preview window, which is recorded as one event carrying the
    arguments of [show_image].  The resizing to [width] by [height] in
    [double] arithmetic and what [cv::resize] and [cv::imshow] receive are
    not part of the embedding. *)
Definition show_image (window_name : string) (img : Mat) (width : Z) : M unit :=
  if Mat_empty img then mret tt
  else emit (EvShow window_name img width).

Section Program.
Context `{Features2d} `{Stitching}.

Definition orb_detectAndCompute (orb : ORB) (img : loc)
  : M (list KeyPoint * list Descriptor) :=
  m ← load img;
  emit (EvDetectAndCompute orb m);;
  mret (detectAndCompute orb m).

Definition matcher_match (normType : NormTypes) (query train : list Descriptor)
  : M (list DMatch) :=
  emit (EvMatch normType query train);;
  mret (BFMatcher_match normType query train).

Definition cv_drawMatches (img1 : loc) (keypoints1 : list KeyPoint)
    (img2 : loc) (keypoints2 : list KeyPoint) (matches : list DMatch) : M Mat :=
  m1 ← load img1;
  m2 ← load img2;
  emit (EvDrawMatches m1 m2 matches);;
  mret (drawMatches m1 keypoints1 m2 keypoints2 matches).

Definition detect_and_show_features (img1 img2 : loc) : M bool :=
  let orb := ORB_create 5000 in
  '(keypoints1, descriptors1) ← orb_detectAndCompute orb img1;
  '(keypoints2, descriptors2) ← orb_detectAndCompute orb img2;
  print "Detected {} keypoints in image 1\n" [ArgSize (length keypoints1)];;
  print "Detected {} keypoints in image 2\n" [ArgSize (length keypoints2)];;
  if (length keypoints1 <? 50)%nat || (length keypoints2 <? 50)%nat then
    print "Error: Not enough features detected in images\n" [];;
    mret false
  else
    matches ← matcher_match NORM_HAMMING descriptors1 descriptors2;
    print "Found {} matches between images\n" [ArgSize (length matches)];;
    if (length matches <? 10)%nat then
      print "Error: Not enough matches between images\n" [];;
      mret false
    else
      img_matches ← cv_drawMatches img1 keypoints1 img2 keypoints2 matches;
      show_image "Feature Matches" img_matches 800;;
      mret true.

Definition stitcher_stitch (mode : Mode) (orb : ORB) (images : list loc)
    (result : loc) : M StitchOutcome :=
  ms ← load_all images;
  r ← load result;
  emit (EvStitch mode orb ms);;
  match Stitcher_stitch mode orb ms r with
  | Returned status pano => store result pano;; mret (Returned status pano)
  | Threw e => mret (Threw e)
  end.

Definition stitch_images (images : list loc) (result : loc) (mode : Mode)
  : M (Completion bool) :=
  let orb := ORB_create 5000 in
  out ← stitcher_stitch mode orb images result;
  match out with
  | Returned status _ =>
      if status =? OK then
        print "Stitching completed successfully\n" [];;
        mret (Normal true)
      else
        print "Stitching failed with status code: {}\n" [ArgInt status];;
        (if status =? ERR_NEED_MORE_IMGS then
           print "Error: Need more images or failed to find features\n" []
         else if status =? ERR_HOMOGRAPHY_EST_FAIL then
           print "Error: Homography estimation failed\n" []
         else if status =? ERR_CAMERA_PARAMS_ADJUST_FAIL then
           print "Error: Camera parameters adjustment failed\n" []
         else
           print "Error: Unknown stitching error\n" []);;
        mret (Normal false)
  | Threw (cv_Exception what) =>
      print "OpenCV Exception caught during stitching: {}\n" [ArgStr what];;
      mret (Normal false)
  | Threw e => mret (Propagated e)
  end.
End Program.

(** ** The feature extractor and the matcher, from the specification

    [cv::ORB] and [cv::BFMatcher] live in OpenCV, outside [src/]. *)

Module SpecModel.

Section Extractor.
(** The corner/blob response function, the response a point needs to
    count as distinctive, and the descriptor of a point. *)
Variable response : Mat -> Z -> Z -> Z.
Variable threshold : Z.
Variable describe : Mat -> KeyPoint -> Descriptor.

Definition pixel_positions (img : Mat) : list (Z * Z) :=
  y ← seqZ 0 (rows img); x ← seqZ 0 (cols img); [(x, y)].

Definition distinctive_points (img : Mat) : list KeyPoint :=
  filter (fun kp => threshold < kp_response kp)
    ((fun p => Build_KeyPoint p.1 p.2 (response img p.1 p.2))
       <$> pixel_positions img).

(** Modelled from the spec: [extract] (section 4.1), which stands for
    [cv::ORB::detectAndCompute], absent from [src/]: detect up to
    [maxFeatures] locally-distinctive points with a response function,
    compute one descriptor per point, return whatever is found. *)
Definition extract (maxFeatures : Z) (img : Mat)
  : list KeyPoint * list Descriptor :=
  let keypoints := take (Z.to_nat maxFeatures) (distinctive_points img) in
  (keypoints, describe img <$> keypoints).
End Extractor.

(** Number of set bits of a byte. *)
Definition popcount (z : Z) : Z :=
  foldr (fun i n => (if Z.testbit z i then 1 else 0) + n) 0 (seqZ 0 8).

(** Hamming distance of two binary descriptors, byte by byte. *)
Definition hamming (a b : Descriptor) : Z :=
  foldr Z.add 0 (zip_with (fun x y => popcount (Z.lxor x y)) a b).

Definition norm (normType : NormTypes) : Descriptor -> Descriptor -> Z :=
  match normType with NORM_HAMMING => hamming end.

(** The nearest of the train descriptors [B], numbered from [j] on, with
    its distance; the first one wins a tie.  None when [B] is empty. *)
Fixpoint nearest (dist : Descriptor -> Z) (j : nat) (B : list Descriptor)
  : option (nat * Z) :=
  match B with
  | [] => None
  | b :: B' =>
      match nearest dist (S j) B' with
      | None => Some (j, dist b)
      | Some (j', d') => if dist b <=? d' then Some (j, dist b) else Some (j', d')
      end
  end.

Fixpoint match_from (normType : NormTypes) (i : nat) (A B : list Descriptor)
  : list DMatch :=
  match A with
  | [] => []
  | a :: A' =>
      match nearest (norm normType a) 0 B with
      | None => []
      | Some (j, d) => [Build_DMatch i j d]
      end ++ match_from normType (S i) A' B
  end.

(** Modelled from the spec: [match] (section 4.2), which stands for
    [cv::BFMatcher::match], absent from [src/]: for each descriptor in A
    find its nearest neighbour in B under the native metric and emit one
    match with that partner and distance; an empty sequence if either
    input is empty. *)
Definition BFMatcher_match (normType : NormTypes) (A B : list Descriptor)
  : list DMatch :=
  match_from normType 0 A B.

End SpecModel.

(** ** Concrete libraries, for running the program *)

(** The sample of [img] at column [x] of row [y]. *)
Definition sample (img : Mat) (x y : Z) : Z :=
  data img !!! Z.to_nat (y * cols img + x).

Definition sample_descriptor (img : Mat) (kp : KeyPoint) : Descriptor :=
  [kp_response kp `mod` 256].

(** The two images next to each other. *)
Definition side_by_side (img1 : Mat) (keypoints1 : list KeyPoint) (img2 : Mat)
    (keypoints2 : list KeyPoint) (matches : list DMatch) : Mat :=
  {| rows := Z.max (rows img1) (rows img2);
     cols := cols img1 + cols img2;
     data := data img1 ++ data img2 |}.

(** The extractor and matcher of the specification over any response,
    threshold, descriptor and drawing function. *)
Definition spec_features (response : Mat -> Z -> Z -> Z) (threshold : Z)
    (describe : Mat -> KeyPoint -> Descriptor)
    (draw : Mat -> list KeyPoint -> Mat -> list KeyPoint -> list DMatch -> Mat)
  : Features2d :=
  {| detectAndCompute orb img :=
       SpecModel.extract response threshold describe (nfeatures orb) img;
     BFMatcher_match := SpecModel.BFMatcher_match;
     drawMatches := draw |}.

(** Every positive sample is a keypoint. *)
Definition sample_features : Features2d :=
  spec_features sample 0 sample_descriptor side_by_side.

(** A stitcher with a fixed outcome. *)
Definition const_stitcher (out : StitchOutcome) : Stitching :=
  {| Stitcher_stitch _ _ _ _ := out |}.

(** A [w] by [h] image with every sample equal to [v]. *)
Definition flat_image (w h v : Z) : Mat :=
  {| rows := h; cols := w; data := replicate (Z.to_nat (w * h)) v |}.

Definition init_state (imgs : list Mat) : State :=
  {| heap := list_to_map (zip (seq 0 (length imgs)) imgs); trace := [] |}.

(** Two 10 by 5 images whose 50 samples are all keypoints. *)
Definition two_flat_images : State :=
  init_state [flat_image 10 5 1; flat_image 10 5 1].

(** ** What a typed stitching result would be *)

(** The failures the specification lists for [compose]. *)
Inductive StitchFailure :=
| TooFewImages
| HomographyEstimationFailed
| CameraParamsAdjustmentFailed
| Unknown.

(** The failure a non-[OK] status stands for, by the [switch] of
    [stitch_images]. *)
Definition failure_of_status (status : Status) : StitchFailure :=
  if status =? ERR_NEED_MORE_IMGS then TooFewImages
  else if status =? ERR_HOMOGRAPHY_EST_FAIL then HomographyEstimationFailed
  else if status =? ERR_CAMERA_PARAMS_ADJUST_FAIL then CameraParamsAdjustmentFailed
  else Unknown.

(** The console line [stitch_images] prints for a failure. *)
Definition diagnostic (f : StitchFailure) : string :=
  match f with
  | TooFewImages => "Error: Need more images or failed to find features\n"
  | HomographyEstimationFailed => "Error: Homography estimation failed\n"
  | CameraParamsAdjustmentFailed => "Error: Camera parameters adjustment failed\n"
  | Unknown => "Error: Unknown stitching error\n"
  end.

(** Events of the drawing and display stage of [detect_and_show_features]. *)
Definition is_display (e : Event) : bool :=
  match e with
  | EvDrawMatches _ _ _ | EvShow _ _ _ => true
  | _ => false
  end.

Definition is_match (e : Event) : bool :=
  match e with
  | EvMatch _ _ _ => true
  | _ => false
  end.

(** ** What a run of [detect_and_show_features] computes and records *)

Section FeaturesRun.
Context `{Features2d}.

(** The keypoints and descriptors the run computes for the image at [l]. *)
Definition detected (s : State) (l : loc) : list KeyPoint * list Descriptor :=
  detectAndCompute (ORB_create 5000) (heap s !!! l).

(** The match set of the two images. *)
Definition matched (s : State) (img1 img2 : loc) : list DMatch :=
  BFMatcher_match NORM_HAMMING (detected s img1).2 (detected s img2).2.

Definition enough_features (s : State) (img1 img2 : loc) : bool :=
  negb ((length (detected s img1).1 <? 50)%nat
        || (length (detected s img2).1 <? 50)%nat).

Definition enough_matches (s : State) (img1 img2 : loc) : bool :=
  negb (length (matched s img1 img2) <? 10)%nat.

(** The two detector calls and the two count lines every run starts with. *)
Definition detection_events (s : State) (img1 img2 : loc) : list Event :=
  [ EvDetectAndCompute (ORB_create 5000) (heap s !!! img1);
    EvDetectAndCompute (ORB_create 5000) (heap s !!! img2);
    EvPrint "Detected {} keypoints in image 1\n"
      [ArgSize (length (detected s img1).1)];
    EvPrint "Detected {} keypoints in image 2\n"
      [ArgSize (length (detected s img2).1)] ].

Definition matching_events (s : State) (img1 img2 : loc) : list Event :=
  [ EvMatch NORM_HAMMING (detected s img1).2 (detected s img2).2;
    EvPrint "Found {} matches between images\n"
      [ArgSize (length (matched s img1 img2))] ].

Definition preview (s : State) (img1 img2 : loc) : Mat :=
  drawMatches (heap s !!! img1) (detected s img1).1
    (heap s !!! img2) (detected s img2).1 (matched s img1 img2).

Definition display_events (s : State) (img1 img2 : loc) : list Event :=
  EvDrawMatches (heap s !!! img1) (heap s !!! img2) (matched s img1 img2)
  :: (if Mat_empty (preview s img1 img2) then []
      else [EvShow "Feature Matches" (preview s img1 img2) 800]).

(** The result and the events of a run, in closed form. *)
Definition features_run (s : State) (img1 img2 : loc) : bool * list Event :=
  if enough_features s img1 img2 then
    if enough_matches s img1 img2 then
      (true, detection_events s img1 img2 ++ matching_events s img1 img2
               ++ display_events s img1 img2)
    else
      (false, detection_events s img1 img2 ++ matching_events s img1 img2
                ++ [EvPrint "Error: Not enough matches between images\n" []])
  else
    (false, detection_events s img1 img2
              ++ [EvPrint "Error: Not enough features detected in images\n" []]).
End FeaturesRun.

(** ** What a run of [stitch_images] gets from the stitcher *)

Section StitchRun.
Context `{Stitching}.

Definition stitcher_outcome (images : list loc) (result : loc) (mode : Mode)
    (s : State) : StitchOutcome :=
  Stitcher_stitch mode (ORB_create 5000) ((fun l => heap s !!! l) <$> images)
    (heap s !!! result).
End StitchRun.

(** The line a run of [stitch_images] ends with when the stitcher returns. *)
Definition closing_line (status : Status) : string :=
  if status =? OK then "Stitching completed successfully\n"
  else diagnostic (failure_of_status status).

Ltac unfold_monad :=
  unfold orb_detectAndCompute, matcher_match, cv_drawMatches, show_image,
    stitcher_stitch, mbind, M_bind, load, store, emit, print, mret, M_ret in *;
  simpl in *.

(** ** [read_image] and the console session of [main] *)

(** [cv::ImreadModes]; the program only names [cv::IMREAD_COLOR]. *)
Inductive ImreadModes : Set := IMREAD_COLOR.

(** What the program takes from its surroundings: the global [file_path]
    ([fs::current_path().parent_path()], set once when the program starts),
    the version macros of OpenCV, and the image codecs. *)
Class Host := {
  file_path : string;
  CV_VERSION_MAJOR : Z;
  CV_VERSION_MINOR : Z;
  CV_VERSION_REVISION : Z;
  (** [cv::imread(path, flags)]: the decoded file, an empty image when the
      file cannot be read. *)
  imread : string -> ImreadModes -> Mat;
  (** [cv::imwrite(path, img)]: whether the file was written. *)
  imwrite : string -> Mat -> bool
}.

Definition read_image `{Host} (img_path : string) : M Mat :=
  let path := file_path +:+ "/" +:+ img_path in
  print "Reading image from: {}\n" [ArgStr path];;
  let img := imread path IMREAD_COLOR in
  if Mat_empty img then
    print "Error: Could not read the image from {}\n" [ArgStr path];;
    mret Mat_new
  else
    print "Image read successfully. Size: {}x{}\n"
      [ArgInt (cols img); ArgInt (rows img)];;
    mret img.

(** Effects of [main] outside the images and the console. *)
Inductive HostEvent :=
| EvImwrite (path : string) (img : Mat) (written : bool)
| EvDestroyAllWindows.

(** The state of a session: the images and the console, the local
    [images_loaded] of [main], and the files written so far. *)
Record Session := {
  core : State;
  images_loaded : bool;
  host_trace : list HostEvent
}.

Definition MS (A : Type) : Type := Session -> A * Session.

#[global] Instance MS_ret : MRet MS := fun A (a : A) ss => (a, ss).
#[global] Instance MS_bind : MBind MS :=
  fun A B (f : A -> MS B) (m : MS A) ss => let '(a, ss') := m ss in f a ss'.

(** A call of one of the functions above from [main]. *)
Definition lift {A} (m : M A) : MS A :=
  fun ss =>
    let '(a, s') := m (core ss) in
    (a, {| core := s'; images_loaded := images_loaded ss;
           host_trace := host_trace ss |}).

Definition get_images_loaded : MS bool := fun ss => (images_loaded ss, ss).

Definition set_images_loaded (b : bool) : MS unit :=
  fun ss => (tt, {| core := core ss; images_loaded := b;
                    host_trace := host_trace ss |}).

Definition host_emit (e : HostEvent) : MS unit :=
  fun ss => (tt, {| core := core ss; images_loaded := images_loaded ss;
                    host_trace := host_trace ss ++ [e] |}).

Definition cv_imwrite `{Host} (path : string) (img : loc) : MS bool :=
  m ← lift (load img);
  host_emit (EvImwrite path m (imwrite path m));;
  mret (imwrite path m).

(** The end of the scope of a local image. *)
Definition free (l : loc) : M unit :=
  fun s => (tt, {| heap := delete l (heap s); trace := trace s |}).

(** The locals of [main]: [img_one], [img_two], the two elements of the
    vector [images] and [result]. *)
Definition img_one : loc := 0%nat.
Definition img_two : loc := 1%nat.
Definition images_0 : loc := 2%nat.
Definition images_1 : loc := 3%nat.
Definition scans_result : loc := 4%nat.

(** Whether the loop of [main] goes on after a command. *)
Inductive Control := Continue | Break.

Section Main.
Context `{Host} `{Features2d} `{Stitching}.

(** One turn of the loop of [main], after the prompt and [std::getline]. *)
Definition main_command (command : string) : MS (Completion Control) :=
  if String.eqb command "exit" then
    lift (print "Exiting console. Goodbye!\n" []);;
    mret (Normal Break)
  else if String.eqb command "help" then
    lift (print "Available commands:\n" []);;
    lift (print "  load          - Load images (1.jpg and 2.jpg)\n" []);;
    lift (print "  features      - Detect and show features\n" []);;
    lift (print "  stitch_scans  - Stitch images in SCANS mode\n" []);;
    lift (print "  exit          - Exit the program\n" []);;
    mret (Normal Continue)
  else if String.eqb command "load" then
    m1 ← lift (read_image "1.png");
    lift (store img_one m1);;
    m2 ← lift (read_image "2.png");
    lift (store img_two m2);;
    i1 ← lift (load img_one);
    i2 ← lift (load img_two);
    (if negb (Mat_empty i1) && negb (Mat_empty i2) then
       set_images_loaded true;;
       lift (print "Images loaded successfully\n" [])
     else
       set_images_loaded false;;
       lift (print "Failed to load one or both images\n" []));;
    mret (Normal Continue)
  else if String.eqb command "features" then
    loaded ← get_images_loaded;
    if (loaded : bool) then
      lift (detect_and_show_features img_one img_two);;
      mret (Normal Continue)
    else
      lift (print "Images not loaded. Use 'load' command first.\n" []);;
      mret (Normal Continue)
  else if String.eqb command "stitch_scans" then
    loaded ← get_images_loaded;
    if (loaded : bool) then
      i1 ← lift (load img_one);
      i2 ← lift (load img_two);
      lift (store images_0 i1);;
      lift (store images_1 i2);;
      lift (store scans_result Mat_new);;
      r ← lift (stitch_images [images_0; images_1] scans_result SCANS);
      match r with
      | Normal ok =>
          (if (ok : bool) then
             cv_imwrite "scans_result.jpg" scans_result;;
             lift (print "Result saved as scans_result.jpg\n" [])
           else (mret tt : MS unit));;
          lift (free scans_result);;
          lift (free images_1);;
          lift (free images_0);;
          mret (Normal Continue)
      | Propagated e => mret (Propagated e)
      end
    else
      lift (print "Images not loaded. Use 'load' command first.\n" []);;
      mret (Normal Continue)
  else
    lift (print "Unknown command: {}. Type 'help' for available commands.\n"
            [ArgStr command]);;
    mret (Normal Continue).

(** The loop of [main] over the lines of the standard input.  The embedding
    follows the loop as long as [std::getline] delivers a line: when the
    lines run out it stops after the prompt, with [Normal Continue].  What
    the loop does on a failed [std::getline], which it never tests, is not
    part of the embedding. *)
Fixpoint main_loop (input : list string) : MS (Completion Control) :=
  lift (print "\n> " []);;
  match input with
  | [] => mret (Normal Continue)
  | command :: rest =>
      c ← main_command command;
      match c with
      | Normal Continue => main_loop rest
      | Normal Break => mret (Normal Break)
      | Propagated e => mret (Propagated e)
      end
  end.

(** How a run of [main] stands when the lines of the input are used up:
    returned with a code, still in its loop, or ended by an exception
    nobody caught. *)
Inductive Ending :=
| Returns (code : Z)
| InputExhausted
| Uncaught (e : Exn).

Definition main (input : list string) : MS Ending :=
  lift (print "OpenCV Image Stitching Console\n" []);;
  lift (print "OpenCV version: {}.{}.{}\n"
          [ArgInt CV_VERSION_MAJOR; ArgInt CV_VERSION_MINOR;
           ArgInt CV_VERSION_REVISION]);;
  lift (print "Working directory: {}\n" [ArgStr file_path]);;
  lift (print "Type 'exit' to quit or 'help' for commands\n" []);;
  lift (store img_one Mat_new);;
  lift (store img_two Mat_new);;
  set_images_loaded false;;
  c ← main_loop input;
  match c with
  | Normal Break => host_emit EvDestroyAllWindows;; mret (Returns 0)
  | Normal Continue => mret InputExhausted
  | Propagated e => mret (Uncaught e)
  end.
End Main.

(** The state [main] starts from. *)
Definition start : Session :=
  {| core := {| heap := ∅; trace := [] |};
     images_loaded := false;
     host_trace := [] |}.

(** A host whose files are given by [files]; every write succeeds. *)
Definition host_of (dir : string) (files : string -> Mat) : Host :=
  {| file_path := dir;
     CV_VERSION_MAJOR := 4; CV_VERSION_MINOR := 0; CV_VERSION_REVISION := 0;
     imread path _ := files path;
     imwrite _ _ := true |}.

(** A directory with the two images the program asks for. *)
Definition two_files (path : string) : Mat :=
  if String.eqb path "/maps/1.png" then flat_image 10 5 1
  else if String.eqb path "/maps/2.png" then flat_image 10 5 1
  else Mat_new.

Definition maps_host : Host := host_of "/maps" two_files.

(** An empty directory. *)
Definition bare_host : Host := host_of "/maps" (fun _ => Mat_new).

(** ** What is watched over a session *)

(** When [images_loaded] is set, both images of [main] are non-empty. *)
Definition loaded_means_images (ss : Session) : Prop :=
  images_loaded ss = true ->
  Mat_empty (heap (core ss) !!! img_one) = false /\
  Mat_empty (heap (core ss) !!! img_two) = false.

(** An OpenCV call that gets no empty image; for the stitcher, a call in
    [SCANS] mode on exactly two images. *)
Definition call_on_images (e : Event) : Prop :=
  match e with
  | EvPrint _ _ => True
  | EvDetectAndCompute _ img => Mat_empty img = false
  | EvMatch _ _ _ => True
  | EvDrawMatches img1 img2 _ => Mat_empty img1 = false /\ Mat_empty img2 = false
  | EvShow _ img _ => Mat_empty img = false
  | EvStitch mode _ imgs =>
      mode = SCANS /\ length imgs = 2%nat /\
      Forall (fun img => Mat_empty img = false) imgs
  end.

(** The calls that take the images of [main]: the detector and
    [cv::drawMatches] get no empty image, the stitcher is called in [SCANS]
    mode on exactly two non-empty images. *)
Definition takes_images (e : Event) : Prop :=
  match e with
  | EvDetectAndCompute _ img => Mat_empty img = false
  | EvDrawMatches img1 img2 _ => Mat_empty img1 = false /\ Mat_empty img2 = false
  | EvStitch mode _ imgs =>
      mode = SCANS /\ length imgs = 2%nat /\
      Forall (fun img => Mat_empty img = false) imgs
  | _ => True
  end.

Definition is_print (e : Event) : bool :=
  match e with
  | EvPrint _ _ => true
  | _ => false
  end.

Definition is_detect (e : Event) : bool :=
  match e with
  | EvDetectAndCompute _ _ => true
  | _ => false
  end.

Definition is_show (e : Event) : bool :=
  match e with
  | EvShow _ _ _ => true
  | _ => false
  end.

Section MainRun.
Context `{Host}.

(** What [read_image] returns for a file name. *)
Definition image_read (img_path : string) : Mat :=
  let img := imread (file_path +:+ "/" +:+ img_path) IMREAD_COLOR in
  if Mat_empty img then Mat_new else img.

(** The lines [read_image] prints. *)
Definition read_events (img_path : string) : list Event :=
  let path := file_path +:+ "/" +:+ img_path in
  let img := imread path IMREAD_COLOR in
  [ EvPrint "Reading image from: {}\n" [ArgStr path];
    if Mat_empty img then
      EvPrint "Error: Could not read the image from {}\n" [ArgStr path]
    else
      EvPrint "Image read successfully. Size: {}x{}\n"
        [ArgInt (cols img); ArgInt (rows img)] ].

(** Whether both files of the [load] command can be read. *)
Definition both_readable : bool :=
  negb (Mat_empty (imread (file_path +:+ "/" +:+ "1.png") IMREAD_COLOR))
  && negb (Mat_empty (imread (file_path +:+ "/" +:+ "2.png") IMREAD_COLOR)).
End MainRun.

Ltac unfold_session :=
  unfold lift, get_images_loaded, set_images_loaded, host_emit, cv_imwrite,
    free, mbind, MS_bind, mret, MS_ret in *;
  simpl in *.

Section ScansRun.
Context `{Stitching}.

(** The images in memory when [main] calls [stitch_images]: the two copies
    in [images] and the fresh [result]. *)
Definition staged (ss : Session) : gmap loc Mat :=
  <[scans_result := Mat_new]>
    (<[images_1 := heap (core ss) !!! img_two]>
       (<[images_0 := heap (core ss) !!! img_one]> (heap (core ss)))).

(** The images in memory once [result] and [images] are out of scope. *)
Definition cleared (h : gmap loc Mat) : gmap loc Mat :=
  delete images_0 (delete images_1 (delete scans_result h)).

(** What the stitcher does on the [stitch_scans] command. *)
Definition scans_outcome (ss : Session) : StitchOutcome :=
  Stitcher_stitch SCANS (ORB_create 5000)
    [heap (core ss) !!! img_one; heap (core ss) !!! img_two] Mat_new.

Definition scans_call (ss : Session) : Event :=
  EvStitch SCANS (ORB_create 5000)
    [heap (core ss) !!! img_one; heap (core ss) !!! img_two].
End ScansRun.

(** The session after some more lines and calls on the console. *)
Definition said (evs : list Event) (ss : Session) : Session :=
  {| core := {| heap := heap (core ss); trace := trace (core ss) ++ evs |};
     images_loaded := images_loaded ss;
     host_trace := host_trace ss |}.

(** The session after the prompt of a turn of the loop. *)
Definition prompted (ss : Session) : Session :=
  said [EvPrint "\n> " []] ss.

(** The session when the loop of [main] is entered: the banner is printed,
    both images are empty and [images_loaded] is false. *)
Definition opened `{Host} (ss : Session) : Session :=
  {| core :=
       {| heap := <[img_two := Mat_new]> (<[img_one := Mat_new]> (heap (core ss)));
          trace := trace (core ss)
            ++ [ EvPrint "OpenCV Image Stitching Console\n" [];
                 EvPrint "OpenCV version: {}.{}.{}\n"
                   [ArgInt CV_VERSION_MAJOR; ArgInt CV_VERSION_MINOR;
                    ArgInt CV_VERSION_REVISION];
                 EvPrint "Working directory: {}\n" [ArgStr file_path];
                 EvPrint "Type 'exit' to quit or 'help' for commands\n" [] ] |};
     images_loaded := false;
     host_trace := host_trace ss |}.

(** The lines that announce a successful stitch and a saved result, and
    the writes of a result. *)
Definition is_stitched_line (e : Event) : bool :=
  match e with
  | EvPrint fmt _ => String.eqb fmt "Stitching completed successfully\n"
  | _ => false
  end.

Definition is_saved_line (e : Event) : bool :=
  match e with
  | EvPrint fmt _ => String.eqb fmt "Result saved as scans_result.jpg\n"
  | _ => false
  end.

Definition is_write (e : HostEvent) : bool :=
  match e with
  | EvImwrite _ _ _ => true
  | EvDestroyAllWindows => false
  end.

Definition count {A} (p : A -> bool) (l : list A) : nat :=
  length (List.filter p l).

(** A stitcher that throws nothing but [cv::Exception]. *)
Definition throws_only_cv `{Stitching} : Prop :=
  forall mode orb images result what,
    Stitcher_stitch mode orb images result <> Threw (other_exception what).

(** A line that is none of the five commands. *)
Definition unknown (command : string) : Prop :=
  String.eqb command "exit" = false /\ String.eqb command "help" = false /\
  String.eqb command "load" = false /\ String.eqb command "features" = false /\
  String.eqb command "stitch_scans" = false.

(** The two images of [main] are in the second session what they are in
    the first. *)
Definition same_images (ss ss' : Session) : Prop :=
  heap (core ss') !! img_one = heap (core ss) !! img_one /\
  heap (core ss') !! img_two = heap (core ss) !! img_two.

(** A stretch of a session from [ss] to [ss'] that put [evs] on the console
    trace and [hevs] on the host trace: no call got an empty image, every
    host event is a write of a result, and there are as many writes, and as
    many saved lines, as lines announcing a successful stitch. *)
Record Stretch (ss ss' : Session) (evs : list Event) (hevs : list HostEvent)
  : Prop := {
  stretch_trace : trace (core ss') = trace (core ss) ++ evs;
  stretch_host : host_trace ss' = host_trace ss ++ hevs;
  stretch_calls : Forall call_on_images evs;
  stretch_writes : Forall (fun e => is_write e = true) hevs;
  stretch_stitched : count is_write hevs = count is_stitched_line evs;
  stretch_saved : count is_saved_line evs = count is_stitched_line evs
}.

(** * Theorems *)

(** ** [detect_and_show_features] *)

Section FeaturesFacts.
Context `{Features2d}.

(** A run leaves the images alone and appends the events of
    [features_run] to the trace. *)
Lemma detect_and_show_features_run s img1 img2 :
  detect_and_show_features img1 img2 s =
    ((features_run s img1 img2).1,
     {| heap := heap s; trace := trace s ++ (features_run s img1 img2).2 |}).
Proof.
  unfold features_run, enough_features, enough_matches, display_events, preview,
    matching_events, detection_events, matched, detected, detect_and_show_features.
  unfold_monad.
  destruct (detectAndCompute _ (heap s !!! img1)) as [k1 d1]; simpl.
  destruct (detectAndCompute _ (heap s !!! img2)) as [k2 d2]; simpl.
  destruct ((length k1 <? 50)%nat || (length k2 <? 50)%nat); simpl.
  { rewrite <- !app_assoc. reflexivity. }
  destruct (length (BFMatcher_match NORM_HAMMING d1 d2) <? 10)%nat; simpl.
  { rewrite <- !app_assoc. reflexivity. }
  destruct (Mat_empty _); simpl; rewrite <- !app_assoc; reflexivity.
Qed.

Lemma enough_features_true s img1 img2 :
  enough_features s img1 img2 = true <->
  (50 <= length (detected s img1).1)%nat /\ (50 <= length (detected s img2).1)%nat.
Proof.
  unfold enough_features.
  rewrite negb_true_iff, orb_false_iff, !Nat.ltb_ge. reflexivity.
Qed.

Lemma enough_features_false s img1 img2 :
  enough_features s img1 img2 = false <->
  (length (detected s img1).1 < 50)%nat \/ (length (detected s img2).1 < 50)%nat.
Proof.
  unfold enough_features.
  rewrite negb_false_iff, orb_true_iff, !Nat.ltb_lt. reflexivity.
Qed.

Lemma enough_matches_true s img1 img2 :
  enough_matches s img1 img2 = true <-> (10 <= length (matched s img1 img2))%nat.
Proof.
  unfold enough_matches. rewrite negb_true_iff, Nat.ltb_ge. reflexivity.
Qed.


Lemma detection_events_quiet s img1 img2 :
  Forall (fun e => is_match e = false /\ is_display e = false)
    (detection_events s img1 img2).
Proof. unfold detection_events. repeat constructor. Qed.

Lemma matching_events_no_display s img1 img2 :
  Forall (fun e => is_display e = false) (matching_events s img1 img2).
Proof. unfold matching_events. repeat constructor. Qed.

(** C10: the step returns true exactly when both images yield at least 50
    keypoints and the match set has at least 10 entries; every other run
    returns false. *)
Theorem detect_and_show_features_success_iff s img1 img2 :
  (detect_and_show_features img1 img2 s).1 = true <->
  (50 <= length (detected s img1).1)%nat /\
  (50 <= length (detected s img2).1)%nat /\
  (10 <= length (matched s img1 img2))%nat.
Proof.
  rewrite detect_and_show_features_run. simpl.
  pose proof (enough_features_true s img1 img2) as Hf.
  pose proof (enough_matches_true s img1 img2) as Hm.
  unfold features_run.
  destruct (enough_features s img1 img2), (enough_matches s img1 img2);
    simpl; intuition congruence.
Qed.

(** C5: when either image yields fewer than 50 keypoints the run returns
    false, its last line is the not-enough-features error, and it has made
    no call of the matcher. *)
Theorem few_features_fail_before_matching s img1 img2 :
  (length (detected s img1).1 < 50)%nat \/ (length (detected s img2).1 < 50)%nat ->
  (detect_and_show_features img1 img2 s).1 = false /\
  exists evs,
    trace (detect_and_show_features img1 img2 s).2 = trace s ++ evs /\
    Forall (fun e => is_match e = false) evs /\
    last evs = Some (EvPrint "Error: Not enough features detected in images\n" []).
Proof.
  intros Hfew. apply enough_features_false in Hfew.
  rewrite detect_and_show_features_run. unfold features_run. rewrite Hfew. simpl.
  split; [reflexivity|]. eexists. split; [reflexivity|]. split.
  - repeat constructor.
  - reflexivity.
Qed.
End FeaturesFacts.

Lemma few_features_fail_before_matching_witness :
  let s := init_state [flat_image 3 3 1; flat_image 10 5 1] in
  ((length (@detected sample_features s 0%nat).1 < 50)%nat \/
   (length (@detected sample_features s 1%nat).1 < 50)%nat) /\
  (@detect_and_show_features sample_features 0%nat 1%nat s).1 = false.
Proof.
  intros s.
  assert (Hfew : (length (@detected sample_features s 0%nat).1 < 50)%nat \/
                 (length (@detected sample_features s 1%nat).1 < 50)%nat).
  { left. vm_compute. lia. }
  split; [exact Hfew|].
  exact (proj1 (@few_features_fail_before_matching sample_features s 0%nat 1%nat Hfew)).
Defined.

(** ** [stitch_images] *)

Section StitchFacts.
Context `{Stitching}.

Lemma load_all_run images s :
  load_all images s = ((fun l => heap s !!! l) <$> images, s).
Proof.
  induction images as [|l ls IH]; simpl; [reflexivity|].
  unfold_monad. rewrite IH. reflexivity.
Qed.

(** A run of [stitch_images], by what the stitcher does. *)
Lemma stitch_images_run images result mode s :
  stitch_images images result mode s =
    let t := trace s ++ [EvStitch mode (ORB_create 5000)
                           ((fun l => heap s !!! l) <$> images)] in
    match stitcher_outcome images result mode s with
    | Returned status pano =>
        (Normal (status =? OK),
         {| heap := <[result := pano]> (heap s);
            trace :=
              t ++ (if status =? OK then []
                    else [EvPrint "Stitching failed with status code: {}\n"
                            [ArgInt status]])
                ++ [EvPrint (closing_line status) []] |})
    | Threw (cv_Exception what) =>
        (Normal false,
         {| heap := heap s;
            trace := t ++ [EvPrint "OpenCV Exception caught during stitching: {}\n"
                             [ArgStr what]] |})
    | Threw e => (Propagated e, {| heap := heap s; trace := t |})
    end.
Proof.
  unfold stitch_images, stitcher_outcome, closing_line, failure_of_status.
  unfold_monad. rewrite load_all_run. simpl.
  destruct (Stitcher_stitch _ _ _ _) as [status pano|[what|what]]; simpl;
    try reflexivity.
  destruct (status =? OK); simpl; [reflexivity|].
  destruct (status =? ERR_NEED_MORE_IMGS); simpl;
    [rewrite <- !app_assoc; reflexivity|].
  destruct (status =? ERR_HOMOGRAPHY_EST_FAIL); simpl;
    [rewrite <- !app_assoc; reflexivity|].
  destruct (status =? ERR_CAMERA_PARAMS_ADJUST_FAIL); simpl;
    rewrite <- !app_assoc; reflexivity.
Qed.

(** C1, as amended: for each outcome of the stitcher, [stitch_images]
    returns true exactly when the stitcher reports [OK], with
    the panorama in [result]; for every other status it returns false and
    names the failure only on the console, in its last line; a
    [cv::Exception] is caught and gives false as well; any other
    exception goes on to the caller. *)
Theorem stitch_images_reports images result mode s :
  match stitcher_outcome images result mode s with
  | Returned status pano =>
      (stitch_images images result mode s).1 = Normal (status =? OK) /\
      heap (stitch_images images result mode s).2 !! result = Some pano /\
      last (trace (stitch_images images result mode s).2) =
        Some (EvPrint (if status =? OK then "Stitching completed successfully\n"
                       else diagnostic (failure_of_status status)) [])
  | Threw (cv_Exception what) =>
      (stitch_images images result mode s).1 = Normal false /\
      heap (stitch_images images result mode s).2 = heap s /\
      last (trace (stitch_images images result mode s).2) =
        Some (EvPrint "OpenCV Exception caught during stitching: {}\n"
                [ArgStr what])
  | Threw e =>
      (stitch_images images result mode s).1 = Propagated e /\
      heap (stitch_images images result mode s).2 = heap s
  end.
Proof.
  rewrite stitch_images_run.
  destruct (stitcher_outcome images result mode s) as [status pano|[what|what]];
    simpl.
  - split; [reflexivity|]. split; [apply lookup_insert_eq|].
    rewrite app_assoc, last_snoc. reflexivity.
  - split; [reflexivity|]. split; [reflexivity|]. apply last_snoc.
  - split; reflexivity.
Qed.

(** [stitch_images] writes no image but [result]. *)
Lemma stitch_images_frame images result mode s l :
  l <> result ->
  heap (stitch_images images result mode s).2 !! l = heap s !! l.
Proof.
  intros Hl. rewrite stitch_images_run.
  destruct (stitcher_outcome images result mode s) as [status pano|[what|what]];
    simpl; try reflexivity.
  apply lookup_insert_ne. congruence.
Qed.
End StitchFacts.

(** The value [stitch_images] returns does not tell which stage failed
    (against C1 as stated): a run in which the stitcher needs more images
    and a run in which homography estimation fails return the same value,
    false, and leave the same image in [result]. *)
Lemma stitch_images_return_hides_failure :
  let s := init_state [flat_image 1 1 1; flat_image 1 1 2] in
  let run status :=
    @stitch_images (const_stitcher (Returned status Mat_new))
      [0; 1]%nat 2%nat SCANS s in
  (run ERR_NEED_MORE_IMGS).1 = Normal false /\
  (run ERR_HOMOGRAPHY_EST_FAIL).1 = Normal false /\
  heap (run ERR_NEED_MORE_IMGS).2 = heap (run ERR_HOMOGRAPHY_EST_FAIL).2 /\
  failure_of_status ERR_NEED_MORE_IMGS <> failure_of_status ERR_HOMOGRAPHY_EST_FAIL.
Proof.
  repeat split; try reflexivity. vm_compute. discriminate.
Qed.

(** ** The images in memory *)

(** An input image that is also the output is overwritten (against C9 as
    stated): with [result] bound to the first input, a successful run
    replaces that input by the panorama. *)
Lemma stitch_images_overwrites_aliased_input :
  let s := init_state [flat_image 1 1 1; flat_image 1 1 2] in
  let s' :=
    (@stitch_images (const_stitcher (Returned OK (flat_image 2 1 3)))
       [0; 1]%nat 0%nat SCANS s).2 in
  (0%nat ∈ [0; 1]%nat) /\
  heap s !! 0%nat = Some (flat_image 1 1 1) /\
  heap s' !! 0%nat = Some (flat_image 2 1 3).
Proof.
  split; [apply list_elem_of_here|]. split; reflexivity.
Qed.

Section Frame.
Context `{Features2d} `{Stitching}.

(** C9 as amended: [detect_and_show_features] changes no image, and
    [stitch_images] changes none but the caller's [result]; so when
    [result] is not one of the inputs, every input image is after the
    call what it was before. *)
Theorem inputs_unchanged_unless_result img1 img2 images result mode s :
  result ∉ images ->
  heap (detect_and_show_features img1 img2 s).2 = heap s /\
  (forall l, l <> result ->
     heap (stitch_images images result mode s).2 !! l = heap s !! l) /\
  Forall (fun l => heap (stitch_images images result mode s).2 !! l = heap s !! l)
    images.
Proof.
  intros Hfresh. split; [|split].
  - rewrite detect_and_show_features_run. reflexivity.
  - intros l Hl. apply stitch_images_frame, Hl.
  - apply Forall_forall. intros l Hin. apply stitch_images_frame.
    intros ->. apply Hfresh, Hin.
Qed.
End Frame.



Lemma inputs_unchanged_unless_result_witness :
  let s := init_state [flat_image 1 1 1; flat_image 1 1 2] in
  let s' :=
    (@stitch_images (const_stitcher (Returned OK (flat_image 2 1 3)))
       [0; 1]%nat 2%nat SCANS s).2 in
  (2%nat ∉ [0; 1]%nat) /\
  Forall (fun l => heap s' !! l = heap s !! l) [0; 1]%nat.
Proof.
  intros s s'.
  assert (Hfresh : 2%nat ∉ [0; 1]%nat).
  { apply (bool_decide_unpack _). vm_compute. exact I. }
  split; [exact Hfresh|].
  exact (proj2 (proj2 (@inputs_unchanged_unless_result sample_features
    (const_stitcher (Returned OK (flat_image 2 1 3)))
    0%nat 1%nat [0; 1]%nat 2%nat SCANS s Hfresh))).
Defined.

(** ** The extractor and the matcher of the specification *)

Module SpecFacts.
Import SpecModel.

(** C2: the extractor the program configures with [cv::ORB::create(5000)]
    returns, for every image, as many descriptors as keypoints, and at
    most 5000 of them. *)
Theorem extract_parallel_and_capped
    (response : Mat -> Z -> Z -> Z) (threshold : Z)
    (describe : Mat -> KeyPoint -> Descriptor) (img : Mat) :
  let orb := ORB_create 5000 in
  let '(keypoints, descriptors) :=
    extract response threshold describe (nfeatures orb) img in
  length keypoints = length descriptors /\
  Z.of_nat (length keypoints) <= nfeatures orb /\
  nfeatures orb = 5000.
Proof.
  simpl. rewrite length_fmap, length_take. split; [reflexivity|].
  split; [lia|reflexivity].
Qed.

Lemma nearest_None dist j B : nearest dist j B = None <-> B = [].
Proof.
  destruct B as [|b B]; simpl; [tauto|].
  destruct (nearest dist (S j) B) as [[j' d']|].
  - destruct (dist b <=? d'); split; discriminate.
  - split; discriminate.
Qed.

(** [nearest] returns an element of [B], its distance, and no element of
    [B] is nearer. *)
Lemma nearest_Some dist B : forall j j' d,
  nearest dist j B = Some (j', d) ->
  (j <= j')%nat /\
  (exists b, B !! (j' - j)%nat = Some b /\ d = dist b) /\
  (forall k b', B !! k = Some b' -> d <= dist b').
Proof.
  induction B as [|b B IH]; intros j j' d; simpl; [discriminate|].
  destruct (nearest dist (S j) B) as [[j1 d1]|] eqn:E.
  - destruct (IH _ _ _ E) as (Hle & (b1 & Hb1 & Hd1) & Hmin).
    destruct (dist b <=? d1) eqn:Ecmp; intros [= <- <-].
    + apply Z.leb_le in Ecmp. split; [lia|]. split.
      * exists b. rewrite Nat.sub_diag. split; reflexivity.
      * intros [|k] b' Hk; simpl in Hk.
        -- injection Hk as <-. lia.
        -- specialize (Hmin _ _ Hk). lia.
    + apply Z.leb_gt in Ecmp. split; [lia|]. split.
      * exists b1. replace (j1 - j)%nat with (S (j1 - S j)) by lia.
        split; [exact Hb1|exact Hd1].
      * intros [|k] b' Hk; simpl in Hk.
        -- injection Hk as <-. lia.
        -- apply (Hmin _ _ Hk).
  - apply nearest_None in E. subst B. intros [= <- <-].
    split; [lia|]. split.
    + exists b. rewrite Nat.sub_diag. split; reflexivity.
    + intros [|k] b' Hk; simpl in Hk; [|discriminate].
      injection Hk as <-. lia.
Qed.

Lemma match_from_length normType B : B <> [] ->
  forall A i, length (match_from normType i A B) = length A.
Proof.
  intros HB. induction A as [|a A IH]; intros i; simpl; [reflexivity|].
  destruct (nearest (norm normType a) 0 B) as [[j d]|] eqn:E.
  - simpl. rewrite IH. reflexivity.
  - apply nearest_None in E. contradiction.
Qed.

Lemma match_from_lookup normType B : B <> [] ->
  forall A i k a, A !! k = Some a ->
  exists m b,
    match_from normType i A B !! k = Some m /\
    queryIdx m = (i + k)%nat /\
    B !! trainIdx m = Some b /\
    distance m = norm normType a b /\
    (forall j b', B !! j = Some b' -> distance m <= norm normType a b').
Proof.
  intros HB. induction A as [|a0 A IH]; intros i k a Hk; [discriminate|].
  simpl. destruct (nearest (norm normType a0) 0 B) as [[j d]|] eqn:E.
  - destruct k as [|k]; simpl in *.
    + injection Hk as ->.
      destruct (nearest_Some _ _ _ _ _ E) as (_ & (b & Hb & Hd) & Hmin).
      rewrite Nat.sub_0_r in Hb.
      exists (Build_DMatch i j d), b. simpl.
      repeat split; [lia|exact Hb|exact Hd|exact Hmin].
    + destruct (IH (S i) k a Hk) as (m & b & Hm & Hq & Hb & Hd & Hmin).
      exists m, b. repeat split; [exact Hm|lia|exact Hb|exact Hd|exact Hmin].
  - apply nearest_None in E. contradiction.
Qed.

(** C3: for non-empty A and B the matcher emits exactly one match per
    descriptor of A, in order: the match of the i-th descriptor names it
    as its query, names a descriptor of B as its partner, carries their
    Hamming distance, and no descriptor of B is nearer. *)
Theorem match_nearest_neighbour (A B : list Descriptor) :
  A <> [] -> B <> [] ->
  length (BFMatcher_match NORM_HAMMING A B) = length A /\
  forall i a, A !! i = Some a ->
    exists m b,
      BFMatcher_match NORM_HAMMING A B !! i = Some m /\
      queryIdx m = i /\
      B !! trainIdx m = Some b /\
      distance m = hamming a b /\
      (forall j b', B !! j = Some b' -> distance m <= hamming a b').
Proof.
  intros _ HB. unfold BFMatcher_match. split.
  - apply match_from_length, HB.
  - intros i a Hi.
    destruct (match_from_lookup NORM_HAMMING B HB A 0%nat i a Hi)
      as (m & b & Hm & Hq & Hb & Hd & Hmin).
    exists m, b. repeat split; assumption.
Qed.

Lemma match_from_nil_train normType A : forall i, match_from normType i A [] = [].
Proof. induction A as [|a A IH]; intros i; simpl; [reflexivity|apply IH]. Qed.

(** C6: with an empty descriptor sequence on either side the matcher
    returns the empty match sequence, an ordinary value. *)
Theorem match_empty_input (normType : NormTypes) (A B : list Descriptor) :
  BFMatcher_match normType [] B = [] /\ BFMatcher_match normType A [] = [].
Proof.
  split; [reflexivity|]. apply match_from_nil_train.
Qed.

End SpecFacts.

Lemma match_nearest_neighbour_witness :
  let A := [[255; 0]; [7; 1]] in
  let B := [[3; 0]; [254; 0]; [7; 3]] in
  A <> [] /\ B <> [] /\
  length (SpecModel.BFMatcher_match NORM_HAMMING A B) = length A.
Proof.
  intros A B.
  assert (HA : A <> []) by discriminate.
  assert (HB : B <> []) by discriminate.
  split; [exact HA|]. split; [exact HB|].
  exact (proj1 (SpecFacts.match_nearest_neighbour A B HA HB)).
Defined.

(** ** The program over the extractor and matcher of the specification *)

Section SpecProgram.
Variable response : Mat -> Z -> Z -> Z.
Variable threshold : Z.
Variable describe : Mat -> KeyPoint -> Descriptor.
Variable draw : Mat -> list KeyPoint -> Mat -> list KeyPoint -> list DMatch -> Mat.

Abbreviation cv := (spec_features response threshold describe draw).

(** The detector call of the program is [extract] with the cap 5000. *)
Lemma detected_is_extract s l :
  @detected cv s l =
    SpecModel.extract response threshold describe 5000 (heap s !!! l).
Proof. reflexivity. Qed.

Lemma detected_parallel s l :
  length (@detected cv s l).2 = length (@detected cv s l).1.
Proof. rewrite detected_is_extract. simpl. apply length_fmap. Qed.

(** With one match per query descriptor, two images that pass the
    keypoint check always pass the match check: the matcher is only ever
    called on at least 50 descriptors a side, and returns as many matches
    as the first image has keypoints. *)
Lemma match_check_passes s img1 img2 :
  @enough_features cv s img1 img2 = true ->
  length (@matched cv s img1 img2) = length (@detected cv s img1).1 /\
  @enough_matches cv s img1 img2 = true.
Proof.
  intros Hf. apply enough_features_true in Hf as [H1 H2].
  assert (Hlen : length (@matched cv s img1 img2) = length (@detected cv s img1).1).
  { unfold matched.
    change (@BFMatcher_match cv) with SpecModel.BFMatcher_match.
    unfold SpecModel.BFMatcher_match.
    rewrite SpecFacts.match_from_length.
    - apply detected_parallel.
    - intros Hnil. apply (f_equal length) in Hnil.
      rewrite detected_parallel in Hnil.
      change (length (@nil Descriptor)) with 0%nat in Hnil. lia. }
  split; [exact Hlen|]. apply enough_matches_true. lia.
Qed.
End SpecProgram.

(** ** [read_image] and the session of [main] *)

Section MainFacts.
Context `{Host} `{Features2d} `{Stitching}.

Lemma read_image_run img_path s :
  read_image img_path s =
    (image_read img_path,
     {| heap := heap s; trace := trace s ++ read_events img_path |}).
Proof.
  unfold read_image, image_read, read_events. unfold_monad.
  destruct (Mat_empty _); simpl; rewrite <- !app_assoc; reflexivity.
Qed.

Lemma image_read_empty img_path :
  Mat_empty (image_read img_path) =
    Mat_empty (imread (file_path +:+ "/" +:+ img_path) IMREAD_COLOR).
Proof.
  unfold image_read. simpl.
  destruct (Mat_empty (imread _ _)) eqn:E; [reflexivity|exact E].
Qed.

(** The [load] command. *)
Lemma main_command_load ss :
  main_command "load" ss =
    (Normal Continue,
     {| core :=
          {| heap := <[img_two := image_read "2.png"]>
                       (<[img_one := image_read "1.png"]> (heap (core ss)));
             trace := trace (core ss) ++ read_events "1.png" ++ read_events "2.png"
                        ++ [EvPrint (if both_readable
                                     then "Images loaded successfully\n"
                                     else "Failed to load one or both images\n") []] |};
        images_loaded := both_readable;
        host_trace := host_trace ss |}).
Proof.
  unfold main_command. simpl. unfold_session.
  rewrite !read_image_run. simpl. unfold_monad.
  rewrite lookup_total_insert_ne by discriminate.
  rewrite !lookup_total_insert_eq, !image_read_empty.
  fold both_readable. destruct both_readable; simpl;
    rewrite <- !app_assoc; reflexivity.
Qed.

(** [features] and [stitch_scans] before a successful [load]. *)
Lemma main_command_not_loaded command ss :
  command = "features" \/ command = "stitch_scans" ->
  images_loaded ss = false ->
  main_command command ss =
    (Normal Continue,
     {| core := {| heap := heap (core ss);
                   trace := trace (core ss)
                     ++ [EvPrint "Images not loaded. Use 'load' command first.\n" []] |};
        images_loaded := false;
        host_trace := host_trace ss |}).
Proof.
  intros [-> | ->] Hl; unfold main_command; simpl; unfold_session;
    rewrite Hl; unfold_monad; rewrite ?Hl; reflexivity.
Qed.

(** [features] after a successful [load]. *)
Lemma main_command_features ss :
  images_loaded ss = true ->
  main_command "features" ss =
    (Normal Continue,
     {| core := {| heap := heap (core ss);
                   trace := trace (core ss)
                     ++ (features_run (core ss) img_one img_two).2 |};
        images_loaded := true;
        host_trace := host_trace ss |}).
Proof.
  intros Hl. unfold main_command. simpl. unfold_session.
  rewrite Hl, detect_and_show_features_run. simpl. rewrite ?Hl. reflexivity.
Qed.

Lemma staged_images ss :
  (fun l => staged ss !!! l) <$> [images_0; images_1] =
    [heap (core ss) !!! img_one; heap (core ss) !!! img_two].
Proof.
  unfold staged. simpl.
  rewrite (lookup_total_insert_ne _ scans_result images_0) by discriminate.
  rewrite (lookup_total_insert_ne _ scans_result images_1) by discriminate.
  rewrite lookup_total_insert_eq.
  rewrite (lookup_total_insert_ne _ images_1 images_0) by discriminate.
  rewrite lookup_total_insert_eq. reflexivity.
Qed.

Lemma staged_outcome ss :
  stitcher_outcome [images_0; images_1] scans_result SCANS
    {| heap := staged ss; trace := trace (core ss) |} = scans_outcome ss.
Proof.
  unfold stitcher_outcome, scans_outcome.
  cbn [heap]. rewrite staged_images.
  unfold staged. rewrite lookup_total_insert_eq. reflexivity.
Qed.

(** [stitch_scans] after a successful [load]. *)
Lemma main_command_stitch_scans ss :
  images_loaded ss = true ->
  main_command "stitch_scans" ss =
    match scans_outcome ss with
    | Returned status pano =>
        (Normal Continue,
         {| core :=
              {| heap := cleared (<[scans_result := pano]> (staged ss));
                 trace := trace (core ss) ++ [scans_call ss]
                   ++ (if status =? OK then []
                       else [EvPrint "Stitching failed with status code: {}\n"
                               [ArgInt status]])
                   ++ [EvPrint (closing_line status) []]
                   ++ (if status =? OK
                       then [EvPrint "Result saved as scans_result.jpg\n" []]
                       else []) |};
            images_loaded := true;
            host_trace := host_trace ss
              ++ (if status =? OK
                  then [EvImwrite "scans_result.jpg" pano
                          (imwrite "scans_result.jpg" pano)]
                  else []) |})
    | Threw (cv_Exception what) =>
        (Normal Continue,
         {| core :=
              {| heap := cleared (staged ss);
                 trace := trace (core ss) ++ [scans_call ss]
                   ++ [EvPrint "OpenCV Exception caught during stitching: {}\n"
                         [ArgStr what]] |};
            images_loaded := true;
            host_trace := host_trace ss |})
    | Threw e =>
        (Propagated e,
         {| core := {| heap := staged ss;
                       trace := trace (core ss) ++ [scans_call ss] |};
            images_loaded := true;
            host_trace := host_trace ss |})
    end.
Proof.
  intros Hl. unfold main_command. simpl. unfold_session. rewrite Hl.
  unfold load, store, mbind, M_bind, mret, M_ret. simpl.
  fold (staged ss).
  rewrite stitch_images_run, staged_outcome. cbn [heap trace].
  rewrite staged_images. fold (scans_call ss).
  destruct (scans_outcome ss) as [status pano|[what|what]]; simpl; rewrite ?Hl.
  - destruct (status =? OK); simpl;
      rewrite ?Hl, ?lookup_total_insert_eq, ?app_nil_r, <- ?app_assoc;
      reflexivity.
  - rewrite <- ?app_assoc. reflexivity.
  - reflexivity.
Qed.


Lemma main_command_exit ss :
  main_command "exit" ss =
    (Normal Break, said [EvPrint "Exiting console. Goodbye!\n" []] ss).
Proof. reflexivity. Qed.

Lemma main_command_help ss :
  main_command "help" ss =
    (Normal Continue,
     said [ EvPrint "Available commands:\n" [];
            EvPrint "  load          - Load images (1.jpg and 2.jpg)\n" [];
            EvPrint "  features      - Detect and show features\n" [];
            EvPrint "  stitch_scans  - Stitch images in SCANS mode\n" [];
            EvPrint "  exit          - Exit the program\n" [] ] ss).
Proof.
  unfold main_command, said. simpl. unfold_session. unfold_monad.
  rewrite <- !app_assoc. reflexivity.
Qed.

Lemma main_command_unknown command ss :
  unknown command ->
  main_command command ss =
    (Normal Continue,
     said [EvPrint "Unknown command: {}. Type 'help' for available commands.\n"
             [ArgStr command]] ss).
Proof.
  intros (E1 & E2 & E3 & E4 & E5). unfold main_command.
  rewrite E1, E2, E3, E4, E5. reflexivity.
Qed.

Lemma command_cases command :
  command = "exit" \/ command = "help" \/ command = "load" \/
  command = "features" \/ command = "stitch_scans" \/ unknown command.
Proof.
  unfold unknown.
  destruct (String.eqb command "exit") eqn:E1;
    [apply String.eqb_eq in E1; tauto|].
  destruct (String.eqb command "help") eqn:E2;
    [apply String.eqb_eq in E2; tauto|].
  destruct (String.eqb command "load") eqn:E3;
    [apply String.eqb_eq in E3; tauto|].
  destruct (String.eqb command "features") eqn:E4;
    [apply String.eqb_eq in E4; tauto|].
  destruct (String.eqb command "stitch_scans") eqn:E5;
    [apply String.eqb_eq in E5; tauto|].
  tauto.
Qed.

Lemma staged_lookup ss l :
  l = img_one \/ l = img_two -> staged ss !! l = heap (core ss) !! l.
Proof.
  intros Hl. unfold staged.
  rewrite !lookup_insert_ne; [reflexivity| | |];
    destruct Hl as [-> | ->]; discriminate.
Qed.

Lemma cleared_lookup (h : gmap loc Mat) l :
  l = img_one \/ l = img_two -> cleared h !! l = h !! l.
Proof.
  intros Hl. unfold cleared.
  rewrite !lookup_delete_ne; [reflexivity| | |];
    destruct Hl as [-> | ->]; discriminate.
Qed.

Lemma result_lookup (pano : Mat) (h : gmap loc Mat) l :
  l = img_one \/ l = img_two -> <[scans_result := pano]> h !! l = h !! l.
Proof.
  intros Hl. apply lookup_insert_ne. destruct Hl as [-> | ->]; discriminate.
Qed.

Lemma same_images_refl ss : same_images ss ss.
Proof. split; reflexivity. Qed.

Lemma same_images_said evs ss : same_images ss (said evs ss).
Proof. split; reflexivity. Qed.

Lemma same_images_trans ss1 ss2 ss3 :
  same_images ss1 ss2 -> same_images ss2 ss3 -> same_images ss1 ss3.
Proof. intros [Ha Hb] [Hc Hd]. split; congruence. Qed.

Lemma same_images_total ss ss' :
  same_images ss ss' ->
  heap (core ss') !!! img_one = heap (core ss) !!! img_one /\
  heap (core ss') !!! img_two = heap (core ss) !!! img_two.
Proof. intros [Ha Hb]. rewrite !lookup_total_alt, Ha, Hb. split; reflexivity. Qed.

Lemma loaded_means_images_same ss ss' :
  same_images ss ss' -> images_loaded ss' = images_loaded ss ->
  loaded_means_images ss -> loaded_means_images ss'.
Proof.
  intros Hs Hl Hinv Hl'. apply same_images_total in Hs as [-> ->].
  apply Hinv. congruence.
Qed.

(** The calls of a run of [detect_and_show_features] on two non-empty
    images get no empty image. *)
Lemma features_run_calls s img1 img2 :
  Mat_empty (heap s !!! img1) = false -> Mat_empty (heap s !!! img2) = false ->
  Forall call_on_images (features_run s img1 img2).2.
Proof.
  intros Ha Hb. unfold features_run, detection_events, matching_events,
    display_events.
  destruct (enough_features s img1 img2); [destruct (enough_matches s img1 img2)|];
    simpl; repeat (constructor; simpl; try tauto).
  destruct (Mat_empty (preview s img1 img2)) eqn:E;
    repeat (constructor; simpl; try tauto).
Qed.

Lemma features_run_counts s img1 img2 :
  count is_stitched_line (features_run s img1 img2).2 = 0%nat /\
  count is_saved_line (features_run s img1 img2).2 = 0%nat.
Proof.
  unfold features_run, detection_events, matching_events, display_events.
  destruct (enough_features s img1 img2); [destruct (enough_matches s img1 img2)|];
    try (split; reflexivity).
  destruct (Mat_empty (preview s img1 img2)); split; reflexivity.
Qed.

Lemma closing_line_counts status :
  count is_stitched_line [EvPrint (closing_line status) []]
    = (if status =? OK then 1%nat else 0%nat) /\
  count is_saved_line [EvPrint (closing_line status) []] = 0%nat.
Proof.
  unfold closing_line. destruct (status =? OK); [split; reflexivity|].
  destruct (failure_of_status status); split; reflexivity.
Qed.

Lemma count_app {A} (p : A -> bool) (l1 l2 : list A) :
  count p (l1 ++ l2) = (count p l1 + count p l2)%nat.
Proof. unfold count. rewrite List.filter_app, length_app. reflexivity. Qed.

Lemma Stretch_said evs ss :
  Forall (fun e => is_print e = true) evs ->
  count is_stitched_line evs = 0%nat -> count is_saved_line evs = 0%nat ->
  Stretch ss (said evs ss) evs [].
Proof.
  intros Hp Hc Hd. split; simpl; try reflexivity.
  - rewrite app_nil_r. reflexivity.
  - eapply Forall_impl; [exact Hp|]. intros [] Hx; simpl; try discriminate; exact I.
  - constructor.
  - rewrite Hc. reflexivity.
  - rewrite Hc, Hd. reflexivity.
Qed.

Lemma Stretch_trans ss1 ss2 ss3 e1 e2 h1 h2 :
  Stretch ss1 ss2 e1 h1 -> Stretch ss2 ss3 e2 h2 ->
  Stretch ss1 ss3 (e1 ++ e2) (h1 ++ h2).
Proof.
  intros [A1 A2 A3 A4 A5 A6] [B1 B2 B3 B4 B5 B6]. split.
  - rewrite B1, A1, app_assoc. reflexivity.
  - rewrite B2, A2, app_assoc. reflexivity.
  - apply Forall_app; split; assumption.
  - apply Forall_app; split; assumption.
  - rewrite !count_app. lia.
  - rewrite !count_app. lia.
Qed.

(** What one command adds to a session that keeps the images non-empty
    while [images_loaded] is set. *)
Lemma main_command_stretch command ss :
  loaded_means_images ss ->
  loaded_means_images (main_command command ss).2 /\
  exists evs hevs, Stretch ss (main_command command ss).2 evs hevs.
Proof.
  intros Hinv.
  destruct (command_cases command) as [->|[->|[->|[->|[->|Hu]]]]].
  - rewrite main_command_exit. simpl. split; [exact Hinv|].
    eexists _, _. apply Stretch_said; [repeat constructor|reflexivity..].
  - rewrite main_command_help. simpl. split; [exact Hinv|].
    eexists _, _. apply Stretch_said; [repeat constructor|reflexivity..].
  - rewrite main_command_load. simpl. split.
    + unfold loaded_means_images. simpl. intros Hb.
      rewrite lookup_total_insert_ne by discriminate.
      rewrite !lookup_total_insert_eq, !image_read_empty.
      unfold both_readable in Hb. apply andb_true_iff in Hb as [Ha Hb].
      apply negb_true_iff in Ha, Hb. split; assumption.
    + eexists _, []. split; simpl; try reflexivity.
      * rewrite app_nil_r. reflexivity.
      * unfold read_events. simpl.
        repeat (constructor; simpl; try exact I).
        -- destruct (Mat_empty _); exact I.
        -- destruct (Mat_empty _); exact I.
      * constructor.
      * unfold read_events. simpl.
        destruct (Mat_empty _), (Mat_empty _), both_readable; reflexivity.
      * unfold read_events. simpl.
        destruct (Mat_empty _), (Mat_empty _), both_readable; reflexivity.
  - destruct (images_loaded ss) eqn:Hl.
    + rewrite main_command_features by exact Hl. simpl.
      destruct (Hinv Hl) as [Ha Hb]. split.
      * intros _. simpl. split; assumption.
      * eexists _, []. destruct (features_run_counts (core ss) img_one img_two)
          as [Hc Hd].
        split; simpl; try reflexivity.
        -- rewrite app_nil_r. reflexivity.
        -- apply features_run_calls; assumption.
        -- constructor.
        -- rewrite Hc. reflexivity.
        -- rewrite Hc, Hd. reflexivity.
    + rewrite main_command_not_loaded by tauto. simpl. split.
      * intros Hx. discriminate.
      * eexists _, []. split; simpl; try reflexivity.
        -- rewrite app_nil_r. reflexivity.
        -- repeat constructor.
        -- constructor.
  - destruct (images_loaded ss) eqn:Hl.
    + rewrite main_command_stitch_scans by exact Hl.
      destruct (Hinv Hl) as [Ha Hb].
      assert (Hcall : call_on_images (scans_call ss)).
      { simpl. repeat split. repeat constructor; assumption. }
      destruct (scans_outcome ss) as [status pano|[what|what]]; simpl.
      * split.
        { intros _. simpl.
          rewrite !lookup_total_alt, !cleared_lookup, !result_lookup,
            !staged_lookup, <- !lookup_total_alt by tauto.
          split; assumption. }
        unfold closing_line, scans_call.
        destruct (status =? OK); [|destruct (failure_of_status status)];
          (eexists _, _; split; simpl;
           first [ reflexivity
                 | solve [repeat (constructor; simpl); assumption] ]).
      * split.
        { intros _. simpl.
          rewrite !lookup_total_alt, !cleared_lookup, !staged_lookup,
            <- !lookup_total_alt by tauto.
          split; assumption. }
        eexists _, []. split; simpl; try reflexivity.
        -- rewrite app_nil_r. reflexivity.
        -- repeat constructor; assumption.
        -- constructor.
      * split.
        { intros _. simpl.
          rewrite !lookup_total_alt, !staged_lookup, <- !lookup_total_alt by tauto.
          split; assumption. }
        eexists _, []. split; simpl; try reflexivity.
        -- rewrite app_nil_r. reflexivity.
        -- repeat constructor; assumption.
        -- constructor.
    + rewrite main_command_not_loaded by tauto. simpl. split.
      * intros Hx. discriminate.
      * eexists _, []. split; simpl; try reflexivity.
        -- rewrite app_nil_r. reflexivity.
        -- repeat constructor.
        -- constructor.
  - rewrite main_command_unknown by exact Hu. simpl. split; [exact Hinv|].
    eexists _, _. apply Stretch_said; [repeat constructor|reflexivity..].
Qed.

(** Every command but [load] leaves the two images and [images_loaded]
    as they are. *)
Lemma main_command_frame command ss :
  command <> "load" ->
  same_images ss (main_command command ss).2 /\
  images_loaded (main_command command ss).2 = images_loaded ss.
Proof.
  intros Hn.
  destruct (command_cases command) as [->|[->|[->|[->|[->|Hu]]]]];
    try contradiction.
  - rewrite main_command_exit. split; [apply same_images_said|reflexivity].
  - rewrite main_command_help. split; [apply same_images_said|reflexivity].
  - destruct (images_loaded ss) eqn:Hl.
    + rewrite main_command_features by exact Hl. split; [|reflexivity].
      split; reflexivity.
    + rewrite main_command_not_loaded by tauto. split; [|reflexivity].
      split; reflexivity.
  - destruct (images_loaded ss) eqn:Hl.
    + rewrite main_command_stitch_scans by exact Hl.
      destruct (scans_outcome ss) as [status pano|[what|what]]; simpl;
        (split; [|reflexivity]); split; simpl;
        rewrite ?cleared_lookup, ?result_lookup, ?staged_lookup by tauto;
        reflexivity.
    + rewrite main_command_not_loaded by tauto. split; [|reflexivity].
      split; reflexivity.
  - rewrite main_command_unknown by exact Hu.
    split; [apply same_images_said|reflexivity].
Qed.

(** Before a successful [load], every command but [load] only prints. *)
Lemma main_command_quiet command ss :
  images_loaded ss = false -> command <> "load" ->
  exists evs,
    (main_command command ss).2 = said evs ss /\
    Forall (fun e => is_print e = true) evs.
Proof.
  intros Hl Hn.
  destruct (command_cases command) as [->|[->|[->|[->|[->|Hu]]]]];
    try contradiction.
  - rewrite main_command_exit. eexists. split; [reflexivity|repeat constructor].
  - rewrite main_command_help. eexists. split; [reflexivity|repeat constructor].
  - rewrite main_command_not_loaded by tauto. eexists. split.
    + unfold said. rewrite Hl. reflexivity.
    + repeat constructor.
  - rewrite main_command_not_loaded by tauto. eexists. split.
    + unfold said. rewrite Hl. reflexivity.
    + repeat constructor.
  - rewrite main_command_unknown by exact Hu.
    eexists. split; [reflexivity|repeat constructor].
Qed.

(** Only [exit] leaves the loop, and only a [stitch_scans] whose stitcher
    throws something else than [cv::Exception] ends it by an exception. *)
Lemma main_command_control command ss :
  match (main_command command ss).1 with
  | Normal Break => command = "exit"
  | Normal Continue => command <> "exit"
  | Propagated e =>
      command = "stitch_scans" /\ images_loaded ss = true /\
      scans_outcome ss = Threw e /\ exists what, e = other_exception what
  end.
Proof.
  destruct (command_cases command) as [->|[->|[->|[->|[->|Hu]]]]].
  - rewrite main_command_exit. reflexivity.
  - rewrite main_command_help. discriminate.
  - rewrite main_command_load. discriminate.
  - destruct (images_loaded ss) eqn:Hl.
    + rewrite main_command_features by exact Hl. discriminate.
    + rewrite main_command_not_loaded by tauto. discriminate.
  - destruct (images_loaded ss) eqn:Hl.
    + rewrite main_command_stitch_scans by exact Hl.
      destruct (scans_outcome ss) as [status pano|[what|what]]; simpl;
        try discriminate.
      repeat split. exists what. reflexivity.
    + rewrite main_command_not_loaded by tauto. discriminate.
  - rewrite main_command_unknown by exact Hu. simpl.
    intros ->. destruct Hu as [Hu _]. discriminate.
Qed.

Lemma main_loop_nil ss : main_loop [] ss = (Normal Continue, prompted ss).
Proof. reflexivity. Qed.

Lemma main_loop_cons command rest ss :
  main_loop (command :: rest) ss =
    match (main_command command (prompted ss)).1 with
    | Normal Continue => main_loop rest (main_command command (prompted ss)).2
    | c => (c, (main_command command (prompted ss)).2)
    end.
Proof.
  cbn [main_loop]. unfold_session. unfold_monad. fold (prompted ss).
  change {| core := {| heap := heap (core ss);
                       trace := trace (core ss) ++ [EvPrint "\n> " []] |};
            images_loaded := images_loaded ss;
            host_trace := host_trace ss |} with (prompted ss).
  destruct (main_command command (prompted ss)) as [[[]|e] ss']; reflexivity.
Qed.

Lemma main_run input ss :
  main input ss =
    match (main_loop input (opened ss)).1 with
    | Normal Break =>
        (Returns 0,
         {| core := core (main_loop input (opened ss)).2;
            images_loaded := images_loaded (main_loop input (opened ss)).2;
            host_trace := host_trace (main_loop input (opened ss)).2
                            ++ [EvDestroyAllWindows] |})
    | Normal Continue => (InputExhausted, (main_loop input (opened ss)).2)
    | Propagated e => (Uncaught e, (main_loop input (opened ss)).2)
    end.
Proof.
  unfold main. unfold_session. unfold_monad. rewrite <- !app_assoc. simpl.
  fold (opened ss).
  destruct (main_loop input (opened ss)) as [[[]|e] ss']; reflexivity.
Qed.

Lemma prompted_Stretch ss : Stretch ss (prompted ss) [EvPrint "\n> " []] [].
Proof. apply Stretch_said; [repeat constructor|reflexivity..]. Qed.

Lemma main_loop_stretch input : forall ss,
  loaded_means_images ss ->
  loaded_means_images (main_loop input ss).2 /\
  exists evs hevs, Stretch ss (main_loop input ss).2 evs hevs.
Proof.
  induction input as [|command rest IH]; intros ss Hinv.
  - rewrite main_loop_nil. simpl. split; [exact Hinv|].
    eexists _, _. apply prompted_Stretch.
  - rewrite main_loop_cons.
    assert (Hp : loaded_means_images (prompted ss)) by exact Hinv.
    destruct (main_command_stretch command (prompted ss) Hp)
      as (Hinv' & evs & hevs & Hs).
    pose proof (Stretch_trans _ _ _ _ _ _ _ (prompted_Stretch ss) Hs) as Hs'.
    destruct (main_command command (prompted ss)).1 as [[]|e]; simpl.
    + destruct (IH _ Hinv') as (Hinv'' & evs2 & hevs2 & Hs2). split; [exact Hinv''|].
      eexists _, _. eapply Stretch_trans; eassumption.
    + split; [exact Hinv'|]. eexists _, _. exact Hs'.
    + split; [exact Hinv'|]. eexists _, _. exact Hs'.
Qed.

Lemma said_said evs1 evs2 ss : said evs2 (said evs1 ss) = said (evs1 ++ evs2) ss.
Proof. unfold said. simpl. rewrite app_assoc. reflexivity. Qed.

Lemma said_prompted evs ss :
  said evs (prompted ss) = said ([EvPrint "\n> " []] ++ evs) ss.
Proof. apply said_said. Qed.

Lemma main_loop_quiet input : forall ss,
  "load" ∉ input -> images_loaded ss = false ->
  exists evs,
    (main_loop input ss).2 = said evs ss /\
    Forall (fun e => is_print e = true) evs.
Proof.
  induction input as [|command rest IH]; intros ss Hno Hl.
  - rewrite main_loop_nil. eexists. split; [reflexivity|repeat constructor].
  - rewrite main_loop_cons.
    assert (Hn : command <> "load").
    { intros ->. apply Hno. apply list_elem_of_here. }
    assert (Hno' : "load" ∉ rest).
    { intros Hin. apply Hno. apply list_elem_of_further, Hin. }
    destruct (main_command_quiet command (prompted ss) Hl Hn) as (evs & Hq & Hp).
    rewrite said_prompted in Hq.
    destruct (main_command command (prompted ss)).1 as [[]|e]; simpl.
    + destruct (IH (main_command command (prompted ss)).2 Hno') as (evs2 & Hq2 & Hp2).
      { rewrite Hq. exact Hl. }
      rewrite Hq2, Hq, said_said. eexists. split; [reflexivity|].
      apply Forall_app. split; [|exact Hp2].
      apply Forall_app. split; [repeat constructor|exact Hp].
    + rewrite Hq. eexists. split; [reflexivity|].
      apply Forall_app. split; [repeat constructor|exact Hp].
    + rewrite Hq. eexists. split; [reflexivity|].
      apply Forall_app. split; [repeat constructor|exact Hp].
Qed.

Lemma main_loop_cut pre post : forall ss,
  main_loop (pre ++ "exit" :: post) ss = main_loop (pre ++ ["exit"]) ss.
Proof.
  induction pre as [|command pre IH]; intros ss; simpl app.
  - rewrite !main_loop_cons, main_command_exit. reflexivity.
  - rewrite !main_loop_cons.
    destruct (main_command command (prompted ss)).1 as [[]|e];
      [apply IH|reflexivity..].
Qed.

(** How the loop ends, by the commands it is given. *)
Lemma main_loop_control input : forall ss,
  match (main_loop input ss).1 with
  | Normal Break => "exit" ∈ input
  | Normal Continue => "exit" ∉ input
  | Propagated e => "stitch_scans" ∈ input /\ exists what, e = other_exception what
  end.
Proof.
  induction input as [|command rest IH]; intros ss.
  - rewrite main_loop_nil. simpl. apply not_elem_of_nil.
  - rewrite main_loop_cons.
    pose proof (main_command_control command (prompted ss)) as Hc.
    destruct (main_command command (prompted ss)).1 as [[]|e]; simpl.
    + specialize (IH (main_command command (prompted ss)).2).
      destruct (main_loop rest _).1 as [[]|e].
      * intros Hin. apply elem_of_cons in Hin as [Hin|Hin]; [congruence|tauto].
      * apply list_elem_of_further, IH.
      * destruct IH as [Hin Hw]. split; [apply list_elem_of_further, Hin|exact Hw].
    + subst command. apply list_elem_of_here.
    + destruct Hc as (-> & _ & _ & Hw). split; [apply list_elem_of_here|exact Hw].
Qed.

Lemma main_loop_no_throw `(Hcv : throws_only_cv) input : forall ss e,
  (main_loop input ss).1 <> Propagated e.
Proof.
  induction input as [|command rest IH]; intros ss e.
  - rewrite main_loop_nil. discriminate.
  - rewrite main_loop_cons.
    pose proof (main_command_control command (prompted ss)) as Hc.
    destruct (main_command command (prompted ss)).1 as [[]|e']; simpl.
    + apply IH.
    + discriminate.
    + destruct Hc as (_ & _ & Ho & what & ->). exfalso.
      unfold scans_outcome in Ho. apply Hcv in Ho. exact Ho.
Qed.

Lemma opened_loaded ss : loaded_means_images (opened ss).
Proof. intros Hl. discriminate. Qed.

Lemma opened_Stretch ss : exists evs, Stretch ss (opened ss) evs [].
Proof.
  eexists. split; simpl; try reflexivity.
  - rewrite app_nil_r. reflexivity.
  - repeat constructor.
  - constructor.
Qed.


Lemma main_Stretch input :
  exists evs hevs, Stretch start (main_loop input (opened start)).2 evs hevs.
Proof.
  destruct (opened_Stretch start) as (evs1 & Hs1).
  destruct (main_loop_stretch input (opened start) (opened_loaded start))
    as (_ & evs2 & hevs2 & Hs2).
  eexists _, _. eapply Stretch_trans; eassumption.
Qed.

(** X1: at every point of a session, when [images_loaded] is set both
    images of [main] are non-empty. *)
Theorem main_loaded_images_nonempty input ss :
  images_loaded (main input ss).2 = true ->
  Mat_empty (heap (core (main input ss).2) !!! img_one) = false /\
  Mat_empty (heap (core (main input ss).2) !!! img_two) = false.
Proof.
  rewrite main_run.
  destruct (main_loop_stretch input (opened ss) (opened_loaded ss)) as [Hinv _].
  destruct (main_loop input (opened ss)).1 as [[]|e]; exact Hinv.
Qed.

Lemma main_trace_calls input :
  Forall call_on_images (trace (core (main input start).2)).
Proof.
  rewrite main_run. destruct (main_Stretch input) as (evs & hevs & Hs).
  destruct Hs as [Ht _ Hc _ _ _]. simpl in Ht.
  destruct (main_loop input (opened start)).1 as [[]|e]; simpl;
    rewrite Ht; exact Hc.
Qed.

(** X2: in a session the detector and [cv::drawMatches] are only called on
    non-empty images, and the stitcher only in [SCANS] mode on exactly two
    non-empty images. *)
Theorem main_calls_get_images input :
  Forall takes_images (trace (core (main input start).2)).
Proof.
  eapply Forall_impl; [apply main_trace_calls|].
  intros [] Hx; simpl in *; tauto.
Qed.

(** Over a session there are as many writes of a result, and as many
    saved lines, as lines announcing a successful stitch. *)
Lemma main_writes_once_per_stitch input :
  count is_write (host_trace (main input start).2) =
    count is_stitched_line (trace (core (main input start).2)) /\
  count is_saved_line (trace (core (main input start).2)) =
    count is_stitched_line (trace (core (main input start).2)).
Proof.
  rewrite main_run. destruct (main_Stretch input) as (evs & hevs & Hs).
  destruct Hs as [Ht Hh _ _ Hw Hsv]. simpl in Ht, Hh.
  destruct (main_loop input (opened start)).1 as [[]|e];
    cbn [snd core host_trace]; rewrite ?count_app, Ht, Hh;
    change (count is_write [EvDestroyAllWindows]) with 0%nat; split; lia.
Qed.

(** X3: on [stitch_scans] with the images loaded, [main] writes exactly
    when the stitcher returns [OK]: then the one write is of the returned
    panorama to scans_result.jpg, followed by the saved line whatever
    [cv::imwrite] returned; for every other status, and when the stitcher
    throws, nothing is written. *)
Theorem stitch_scans_saves_panorama ss :
  images_loaded ss = true ->
  match scans_outcome ss with
  | Returned status pano =>
      if status =? OK then
        host_trace (main_command "stitch_scans" ss).2 =
          host_trace ss ++ [EvImwrite "scans_result.jpg" pano
                              (imwrite "scans_result.jpg" pano)] /\
        last (trace (core (main_command "stitch_scans" ss).2)) =
          Some (EvPrint "Result saved as scans_result.jpg\n" [])
      else
        host_trace (main_command "stitch_scans" ss).2 = host_trace ss /\
        last (trace (core (main_command "stitch_scans" ss).2)) =
          Some (EvPrint (diagnostic (failure_of_status status)) [])
  | Threw _ => host_trace (main_command "stitch_scans" ss).2 = host_trace ss
  end.
Proof.
  intros Hl. rewrite main_command_stitch_scans by exact Hl.
  destruct (scans_outcome ss) as [status pano|[what|what]]; simpl;
    try reflexivity.
  unfold closing_line. destruct (status =? OK); simpl.
  - split; [reflexivity|]. rewrite last_app_cons. reflexivity.
  - split; [apply app_nil_r|]. rewrite last_app_cons. reflexivity.
Qed.

(** X4: what follows the first [exit] on the input is never looked at. *)
Theorem main_ignores_input_after_exit pre post ss :
  main (pre ++ "exit" :: post) ss = main (pre ++ ["exit"]) ss.
Proof. rewrite !main_run, main_loop_cut. reflexivity. Qed.

(** X5: a command other than [load] leaves both images of [main] and
    [images_loaded] as they were; [features] and [stitch_scans] work on the
    images without changing them. *)
Theorem only_load_changes_images command ss :
  command <> "load" ->
  heap (core (main_command command ss).2) !! img_one = heap (core ss) !! img_one /\
  heap (core (main_command command ss).2) !! img_two = heap (core ss) !! img_two /\
  images_loaded (main_command command ss).2 = images_loaded ss.
Proof.
  intros Hn. destruct (main_command_frame command ss Hn) as [[Ha Hb] Hl].
  repeat split; assumption.
Qed.

(** X6: [load] sets [images_loaded] exactly when both files can be read;
    either way both images are replaced by what [read_image] returns, the
    empty image for an unreadable file, and no file is written. *)
Theorem load_sets_images_loaded ss :
  (images_loaded (main_command "load" ss).2 = true <->
   Mat_empty (imread (file_path +:+ "/" +:+ "1.png") IMREAD_COLOR) = false /\
   Mat_empty (imread (file_path +:+ "/" +:+ "2.png") IMREAD_COLOR) = false) /\
  heap (core (main_command "load" ss).2) !!! img_one = image_read "1.png" /\
  heap (core (main_command "load" ss).2) !!! img_two = image_read "2.png" /\
  host_trace (main_command "load" ss).2 = host_trace ss.
Proof.
  rewrite main_command_load. simpl. split; [|split; [|split]].
  - unfold both_readable. rewrite andb_true_iff, !negb_true_iff. reflexivity.
  - rewrite lookup_total_insert_ne by discriminate.
    apply lookup_total_insert_eq.
  - apply lookup_total_insert_eq.
  - reflexivity.
Qed.

(** X7: a session without a [load] command calls neither the detector,
    the matcher, [cv::drawMatches], the preview nor the stitcher, and writes
    no file: its console trace is printed lines only, its only host effect
    is [cv::destroyAllWindows] on leaving, and [images_loaded] stays false. *)
Theorem no_load_no_calls input :
  "load" ∉ input ->
  Forall (fun e => is_print e = true) (trace (core (main input start).2)) /\
  Forall (fun e => e = EvDestroyAllWindows) (host_trace (main input start).2) /\
  images_loaded (main input start).2 = false.
Proof.
  intros Hno. rewrite main_run.
  destruct (main_loop_quiet input (opened start) Hno eq_refl) as (evs & Hq & Hp).
  assert (Ht : Forall (fun e => is_print e = true)
                 (trace (core (main_loop input (opened start)).2))).
  { rewrite Hq. simpl. repeat constructor. exact Hp. }
  destruct (main_loop input (opened start)).1 as [[]|e]; simpl;
    (split; [exact Ht|]); rewrite Hq; split; repeat constructor.
Qed.

(** X8: [main] returns only with code 0 and only after an [exit] line,
    and the last thing it does then is [cv::destroyAllWindows]. *)
Theorem main_returns_only_on_exit input ss code :
  (main input ss).1 = Returns code ->
  code = 0 /\ "exit" ∈ input /\
  last (host_trace (main input ss).2) = Some EvDestroyAllWindows.
Proof.
  rewrite main_run.
  pose proof (main_loop_control input (opened ss)) as Hc.
  destruct (main_loop input (opened ss)).1 as [[]|e]; simpl; try discriminate.
  intros [= <-]. split; [reflexivity|]. split; [exact Hc|]. apply last_snoc.
Qed.

(** X9: when the stitcher throws nothing but [cv::Exception], and the
    other OpenCV calls return, [main] returns 0 exactly when the input has
    an [exit] line: no status and no [cv::Exception] of the stitcher ends
    the session before that line is reached. *)
Theorem main_returns_iff_exit input ss :
  throws_only_cv ->
  ((main input ss).1 = Returns 0 <-> "exit" ∈ input).
Proof.
  intros Hcv. rewrite main_run.
  pose proof (main_loop_control input (opened ss)) as Hc.
  pose proof (main_loop_no_throw Hcv input (opened ss)) as Hnt.
  destruct (main_loop input (opened ss)).1 as [[]|e]; simpl.
  - split; try discriminate; tauto.
  - split; try discriminate; tauto.
  - exfalso. apply (Hnt e). reflexivity.
Qed.
End MainFacts.

(** ** More on [detect_and_show_features] and [stitch_images] *)

Section CallFacts.
Context `{Features2d} `{Stitching}.

(** X10: every run of [detect_and_show_features] starts with the detector
    on the first image and then on the second, with 5000 features asked
    for, whatever the first call finds; there is no other detector call. *)
Theorem detector_runs_on_both_images s img1 img2 :
  exists evs,
    trace (detect_and_show_features img1 img2 s).2 =
      trace s ++ [ EvDetectAndCompute (ORB_create 5000) (heap s !!! img1);
                   EvDetectAndCompute (ORB_create 5000) (heap s !!! img2) ]
        ++ evs /\
    Forall (fun e => is_detect e = false) evs.
Proof.
  rewrite detect_and_show_features_run. unfold features_run, detection_events,
    matching_events, display_events. simpl.
  destruct (enough_features s img1 img2); [destruct (enough_matches s img1 img2)|];
    simpl; eexists; (split; [reflexivity|]); repeat constructor.
  destruct (Mat_empty (preview s img1 img2)); repeat constructor.
Qed.

(** X11: the preview window is shown exactly when the run succeeds and
    the image drawn by [cv::drawMatches] is not empty; a run can succeed
    without showing anything. *)
Theorem preview_shown_iff s img1 img2 :
  exists evs,
    trace (detect_and_show_features img1 img2 s).2 = trace s ++ evs /\
    (Exists (fun e => is_show e = true) evs <->
     (detect_and_show_features img1 img2 s).1 = true /\
     Mat_empty (preview s img1 img2) = false).
Proof.
  rewrite detect_and_show_features_run. unfold features_run, detection_events,
    matching_events, display_events. simpl.
  destruct (enough_features s img1 img2); [destruct (enough_matches s img1 img2)|];
    simpl; eexists; (split; [reflexivity|]).
  - destruct (Mat_empty (preview s img1 img2)); simpl; split.
    + intros Hx. repeat (apply Exists_cons in Hx as [Hx|Hx]; [discriminate|]).
      inversion Hx.
    + intros [_ Hx]. discriminate.
    + intros _. split; reflexivity.
    + intros _. do 7 apply Exists_cons_tl. apply Exists_cons_hd. reflexivity.
  - split.
    + intros Hx. repeat (apply Exists_cons in Hx as [Hx|Hx]; [discriminate|]).
      inversion Hx.
    + intros [Hx _]. discriminate.
  - split.
    + intros Hx. repeat (apply Exists_cons in Hx as [Hx|Hx]; [discriminate|]).
      inversion Hx.
    + intros [Hx _]. discriminate.
Qed.

(** X12: [stitch_images] calls the stitcher exactly once, in the caller's
    mode, with 5000 features asked for, on the images as they are in
    memory; everything else it does on the console is printing. *)
Theorem stitch_images_calls_stitcher_once images result mode s :
  exists evs,
    trace (stitch_images images result mode s).2 =
      trace s ++ EvStitch mode (ORB_create 5000)
                   ((fun l => heap s !!! l) <$> images) :: evs /\
    Forall (fun e => is_print e = true) evs.
Proof.
  rewrite stitch_images_run.
  destruct (stitcher_outcome images result mode s) as [status pano|[what|what]];
    simpl.
  - eexists. split; [rewrite <- app_assoc; reflexivity|].
    destruct (status =? OK); repeat constructor.
  - eexists. split; [rewrite <- app_assoc; reflexivity|]. repeat constructor.
  - eexists. split; [reflexivity|]. constructor.
Qed.
End CallFacts.

(** ** Sessions on small inputs *)

Lemma main_loaded_images_nonempty_witness :
  let ss' :=
    (@main maps_host sample_features
       (const_stitcher (Returned OK (flat_image 20 5 1)))
       ["load"; "stitch_scans"] start).2 in
  images_loaded ss' = true /\
  Mat_empty (heap (core ss') !!! img_one) = false /\
  Mat_empty (heap (core ss') !!! img_two) = false.
Proof.
  intros ss'.
  assert (Hl : images_loaded ss' = true) by (vm_compute; reflexivity).
  split; [exact Hl|].
  exact (@main_loaded_images_nonempty maps_host sample_features
           (const_stitcher (Returned OK (flat_image 20 5 1)))
           ["load"; "stitch_scans"] start Hl).
Defined.

Lemma only_load_changes_images_witness :
  let ss :=
    (@main_command maps_host sample_features
       (const_stitcher (Returned OK (flat_image 20 5 1))) "load" start).2 in
  let ss' :=
    (@main_command maps_host sample_features
       (const_stitcher (Returned OK (flat_image 20 5 1))) "stitch_scans" ss).2 in
  "stitch_scans" <> "load" /\
  heap (core ss') !! img_one = heap (core ss) !! img_one /\
  heap (core ss') !! img_two = heap (core ss) !! img_two /\
  images_loaded ss' = images_loaded ss.
Proof.
  intros ss ss'.
  assert (Hn : "stitch_scans" <> "load") by discriminate.
  split; [exact Hn|].
  exact (@only_load_changes_images maps_host sample_features
           (const_stitcher (Returned OK (flat_image 20 5 1)))
           "stitch_scans" ss Hn).
Defined.

Lemma no_load_no_calls_witness :
  let input := ["features"; "stitch_scans"; "help"; "exit"] in
  let ss' :=
    (@main maps_host sample_features
       (const_stitcher (Returned OK (flat_image 20 5 1))) input start).2 in
  ("load" ∉ input) /\
  Forall (fun e => is_print e = true) (trace (core ss')) /\
  Forall (fun e => e = EvDestroyAllWindows) (host_trace ss') /\
  images_loaded ss' = false.
Proof.
  intros input ss'.
  assert (Hno : "load" ∉ input).
  { apply (bool_decide_unpack _). vm_compute. exact I. }
  split; [exact Hno|].
  exact (@no_load_no_calls maps_host sample_features
           (const_stitcher (Returned OK (flat_image 20 5 1))) input Hno).
Defined.

Lemma main_returns_iff_exit_witness :
  let cv := const_stitcher (Returned ERR_NEED_MORE_IMGS Mat_new) in
  let input := ["load"; "stitch_scans"; "exit"] in
  @throws_only_cv cv /\
  ((@main maps_host sample_features cv input start).1 = Returns 0 <->
   "exit" ∈ input).
Proof.
  intros cv input.
  assert (Hcv : @throws_only_cv cv).
  { intros mode orb images result what. simpl. discriminate. }
  split; [exact Hcv|].
  exact (@main_returns_iff_exit maps_host sample_features cv input start Hcv).
Defined.

Lemma main_returns_only_on_exit_witness :
  let cv := const_stitcher (Returned OK (flat_image 20 5 1)) in
  let input := ["load"; "features"; "stitch_scans"; "exit"; "load"] in
  (@main maps_host sample_features cv input start).1 = Returns 0 /\
  "exit" ∈ input /\
  last (host_trace (@main maps_host sample_features cv input start).2)
    = Some EvDestroyAllWindows.
Proof.
  intros cv input.
  assert (Hr : (@main maps_host sample_features cv input start).1 = Returns 0)
    by (vm_compute; reflexivity).
  split; [exact Hr|].
  exact (proj2 (@main_returns_only_on_exit maps_host sample_features cv
                  input start 0 Hr)).
Defined.

(** ** Runs on small inputs *)

Example hamming_bytes : SpecModel.hamming [255; 0; 3] [0; 0; 1] = 9.
Proof. reflexivity. Qed.

Example match_first_wins_tie :
  SpecModel.BFMatcher_match NORM_HAMMING [[1]; [7]; [0]] [[3]; [0]; [15]] =
    [Build_DMatch 0 0 1; Build_DMatch 1 0 1; Build_DMatch 2 1 0].
Proof. reflexivity. Qed.

Example features_succeed_on_flat_images :
  (@detect_and_show_features sample_features 0%nat 1%nat two_flat_images).1 = true.
Proof. vm_compute. reflexivity. Qed.

Example features_fail_on_missing_images :
  @detect_and_show_features sample_features 0%nat 1%nat (init_state []) =
    (false,
     {| heap := ∅;
        trace :=
          [ EvDetectAndCompute (ORB_create 5000) Mat_new;
            EvDetectAndCompute (ORB_create 5000) Mat_new;
            EvPrint "Detected {} keypoints in image 1\n" [ArgSize 0];
            EvPrint "Detected {} keypoints in image 2\n" [ArgSize 0];
            EvPrint "Error: Not enough features detected in images\n" [] ] |}).
Proof. reflexivity. Qed.

Example stitch_unknown_status :
  let r := @stitch_images (const_stitcher (Returned 7 Mat_new))
             [0; 1]%nat 2%nat SCANS (init_state [flat_image 1 1 1; flat_image 1 1 2]) in
  r.1 = Normal false /\
  last (trace r.2) = Some (EvPrint "Error: Unknown stitching error\n" []).
Proof. split; reflexivity. Qed.

Example stitch_other_exception_escapes :
  (@stitch_images (const_stitcher (Threw (other_exception "std::bad_alloc")))
     [0; 1]%nat 2%nat SCANS (init_state [flat_image 1 1 1; flat_image 1 1 2])).1
  = Propagated (other_exception "std::bad_alloc").
Proof. reflexivity. Qed.

Lemma stitch_scans_saves_panorama_witness :
  let cv := const_stitcher (Returned OK (flat_image 20 5 1)) in
  let ss := (@main_command maps_host sample_features cv "load" start).2 in
  images_loaded ss = true /\
  host_trace (@main_command maps_host sample_features cv "stitch_scans" ss).2 =
    [EvImwrite "scans_result.jpg" (flat_image 20 5 1) true].
Proof.
  intros cv ss.
  assert (Hl : images_loaded ss = true) by (vm_compute; reflexivity).
  split; [exact Hl|].
  exact (proj1 (@stitch_scans_saves_panorama maps_host sample_features cv ss Hl)).
Defined.
